(** * boltstore: a gorilla/sessions store backed by a Bolt bucket

    Shallow embedding of [store.go] and of the parts of the libraries it
    calls, followed by the properties of the session life cycle
    (New / Get / Save, load / save / delete). *)

From Stdlib Require Import ZArith Lia Ascii String.
From Stdlib.Strings Require Import Byte.
From stdpp Require Import gmap strings list.

Local Open Scope Z_scope.

(** Go's [error] values; [option error] is a Go [error] result ([None] is
    [nil]) and [error + T] is a Go [(T, error)] result. *)
Definition error := string.

(** [[]byte] *)
Abbreviation bytes := (list byte).

(** ** Panics

    A nil dereference unwinds the call stack of the operation; the
    operations that can reach one return an [outcome]. *)
Inductive outcome (A : Type) : Type :=
| Ret (a : A)
| Panic (msg : string).
Arguments Ret {A} a.
Arguments Panic {A} msg.

#[global] Instance outcome_ret : MRet outcome := fun _ a => Ret a.
#[global] Instance outcome_bind : MBind outcome := fun _ _ k m =>
  match m with
  | Ret a => k a
  | Panic msg => Panic msg
  end.

(** ** package strings *)
Module strings.

(** membership of a byte in a cutset *)
Fixpoint IndexByte (cutset : string) (c : ascii) : bool :=
  match cutset with
  | EmptyString => false
  | String d rest => if Ascii.eqb c d then true else IndexByte rest c
  end.

(** [strings.TrimRight(s, cutset)]: [s] without its trailing bytes that
    belong to [cutset]. *)
Fixpoint TrimRight (s cutset : string) : string :=
  match s with
  | EmptyString => EmptyString
  | String c rest =>
      match TrimRight rest cutset with
      | EmptyString =>
          if IndexByte cutset c then EmptyString else String c EmptyString
      | kept => String c kept
      end
  end.

End strings.

(** ** package encoding/base32 (StdEncoding) *)
Module base32.

Definition encodeStd : string := "ABCDEFGHIJKLMNOPQRSTUVWXYZ234567".

(** [enc.encode[b]]; an index outside the table is a run-time panic in
    Go, shown here as a byte outside the alphabet. *)
Definition encode (b : Z) : ascii :=
  match String.get (Z.to_nat b) encodeStd with
  | Some c => c
  | None => "!"%char
  end.

(** byte arithmetic: [uint8] shifts wrap at 8 bits *)
Definition shl8 (x : Z) (k : Z) : Z := Z.land (Z.shiftl x k) 255.
Definition shr8 (x : Z) (k : Z) : Z := Z.shiftr x k.

Definition byte_val (b : byte) : Z := Z.of_N (Byte.to_N b).

(** The eight 5-bit blocks of one quantum; absent source bytes count
    as zero, as the zeroed [b] array of the Go loop leaves them. *)
Definition blocks (s0 s1 s2 s3 s4 : Z) : list Z :=
  [ shr8 s0 3;
    Z.lor (Z.land (shl8 s0 2) 31) (Z.land (shr8 s1 6) 31);
    Z.land (shr8 s1 1) 31;
    Z.lor (Z.land (shl8 s1 4) 31) (Z.land (shr8 s2 4) 31);
    Z.lor (Z.land (shl8 s2 1) 31) (shr8 s3 7);
    Z.land (shr8 s3 2) 31;
    Z.lor (Z.land (shl8 s3 3) 31) (shr8 s4 5);
    Z.land s4 31 ].

Definition string_of_chars (l : list ascii) : string :=
  fold_right String EmptyString l.

(** the first [n] blocks encoded, the other [8 - n] positions padded *)
Definition quantum (n : nat) (s0 s1 s2 s3 s4 : Z) : string :=
  string_of_chars
    (map encode (take n (blocks s0 s1 s2 s3 s4)) ++ replicate (8 - n)%nat "="%char).

(** [base32.StdEncoding.EncodeToString(src)] *)
Fixpoint EncodeToString (src : bytes) : string :=
  match src with
  | [] => EmptyString
  | [a] => quantum 2 (byte_val a) 0 0 0 0
  | [a; b] => quantum 4 (byte_val a) (byte_val b) 0 0 0
  | [a; b; c] => quantum 5 (byte_val a) (byte_val b) (byte_val c) 0 0
  | [a; b; c; d] =>
      quantum 7 (byte_val a) (byte_val b) (byte_val c) (byte_val d) 0
  | a :: b :: c :: d :: e :: rest =>
      quantum 8 (byte_val a) (byte_val b) (byte_val c) (byte_val d) (byte_val e)
      +:+ EncodeToString rest
  end.

End base32.

(** ** package net/http: cookies of a request, Set-Cookie headers of a
    response *)
Module http.

Record Cookie := {
  Name : string;
  Value : string;
  Path : string;
  Domain : string;
  Expires : option Z;     (* Unix seconds; [None] is the zero time *)
  MaxAge : Z;
  Secure : bool;
  HttpOnly : bool
}.

(** a request, as far as the store reads it: its cookies in order *)
Record Request := { Cookies : list (string * string) }.

(** [r.Cookie(name)]: the first cookie of that name, or [ErrNoCookie] *)
Fixpoint lookup_cookie (name : string) (cs : list (string * string))
  : error + string :=
  match cs with
  | [] => inl "http: named cookie not present"
  | (n, v) :: rest => if String.eqb n name then inr v else lookup_cookie name rest
  end.

Definition Request_Cookie (r : Request) (name : string) : error + string :=
  lookup_cookie name (Cookies r).

(** the response, as far as the store writes it: its Set-Cookie headers *)
Definition ResponseWriter := list Cookie.

Definition SetCookie (w : ResponseWriter) (c : Cookie) : ResponseWriter :=
  w ++ [c].

End http.

(** ** package gorilla/securecookie *)
Module securecookie.

(** The [Codec] interface. A codec stamps and checks the time, so both
    methods read the clock. [Decode] yields the decoded value, which
    the caller stores through its [dst] pointer. *)
Record Codec := {
  Encode : Z -> string -> string -> error + string;
  Decode : Z -> string -> string -> error + string
}.

Definition MultiError (errors : list error) : error :=
  String.concat "; " errors.

Fixpoint encode_loop (now : Z) (name value : string) (codecs : list Codec)
    (errors : list error) : error + string :=
  match codecs with
  | [] => inl (MultiError errors)
  | codec :: rest =>
      match Encode codec now name value with
      | inr encoded => inr encoded
      | inl err => encode_loop now name value rest (errors ++ [err])
      end
  end.

Definition EncodeMulti (now : Z) (name value : string) (codecs : list Codec)
  : error + string := encode_loop now name value codecs [].

Fixpoint decode_loop (now : Z) (name value : string) (codecs : list Codec)
    (errors : list error) : error + string :=
  match codecs with
  | [] => inl (MultiError errors)
  | codec :: rest =>
      match Decode codec now name value with
      | inr dst => inr dst
      | inl err => decode_loop now name value rest (errors ++ [err])
      end
  end.

Definition DecodeMulti (now : Z) (name value : string) (codecs : list Codec)
  : error + string := decode_loop now name value codecs [].

End securecookie.

(** ** package gorilla/sessions *)
Module sessions.

Record Options := {
  Path : string;
  Domain : string;
  MaxAge : Z;
  Secure : bool;
  HttpOnly : bool
}.

(** [Values] is the payload type ([map[interface{}]interface{}] in Go).
    [Opts] is the Go field [Options]; Go holds a pointer there, which
    [New] points at the store's configuration. The record holds what
    the pointer refers to when the session is used. *)
Record Session (V : Type) := {
  ID : string;
  Values : V;
  Opts : Options;
  IsNew : bool;
  name : string
}.
Arguments ID {V} _.
Arguments Values {V} _.
Arguments Opts {V} _.
Arguments IsNew {V} _.
Arguments name {V} _.

Definition Name {V} (s : Session V) : string := name s.

Definition set_ID {V} (s : Session V) (id : string) : Session V :=
  {| ID := id; Values := Values s; Opts := Opts s; IsNew := IsNew s; name := name s |}.
Definition set_Values {V} (s : Session V) (v : V) : Session V :=
  {| ID := ID s; Values := v; Opts := Opts s; IsNew := IsNew s; name := name s |}.
Definition set_Options {V} (s : Session V) (o : Options) : Session V :=
  {| ID := ID s; Values := Values s; Opts := o; IsNew := IsNew s; name := name s |}.
Definition set_IsNew {V} (s : Session V) (b : bool) : Session V :=
  {| ID := ID s; Values := Values s; Opts := Opts s; IsNew := b; name := name s |}.
Definition set_name {V} (s : Session V) (n : string) : Session V :=
  {| ID := ID s; Values := Values s; Opts := Opts s; IsNew := IsNew s; name := n |}.

(** [sessions.NewCookie(name, value, options)] *)
Definition NewCookie (now : Z) (name value : string) (options : Options)
  : http.Cookie :=
  {| http.Name := name;
     http.Value := value;
     http.Path := Path options;
     http.Domain := Domain options;
     http.Expires :=
       if 0 <? MaxAge options then Some (now + MaxAge options)
       else if MaxAge options <? 0 then Some 1
       else None;
     http.MaxAge := MaxAge options;
     http.Secure := Secure options;
     http.HttpOnly := HttpOnly options |}.

(** the per-request registry: the sessions already looked up, by name,
    each with the error of its lookup. Go's registry holds the pointer
    to the session; this map holds the session as it was when it was
    registered, which is the same thing until the session is mutated.
    The properties below use it on fresh requests only. *)
Definition Registry (V : Type) := gmap string (Session V * option error).

End sessions.

(** ** package boltdb/bolt

    One database with the one bucket that [open] creates. [put_fault],
    [delete_fault] and [commit_fault] stand for what the file system and
    the engine may refuse (a key it rejects, a full disk, a lock). *)
Module bolt.

Record DB := {
  opened : bool;
  bucket : gmap string bytes;
  put_fault : string -> bytes -> option error;
  delete_fault : string -> option error;
  commit_fault : option error
}.

Definition set_bucket (db : DB) (b : gmap string bytes) : DB :=
  {| opened := opened db; bucket := b; put_fault := put_fault db;
     delete_fault := delete_fault db; commit_fault := commit_fault db |}.

Definition ErrDatabaseNotOpen : error := "database not open".
Definition ErrKeyRequired : error := "key required".

(** what the engine's [Put] checks first: it refuses a zero-length key *)
Definition validate_key (key : string) (value : bytes) : option error :=
  if (String.length key =? 0)%nat then Some ErrKeyRequired else None.

(** a writable transaction works on its own copy of the database *)
Definition Tx := DB.

(** [bucket.Get(key)]; [None] is the nil slice *)
Definition Get (tx : Tx) (key : string) : option bytes := bucket tx !! key.

(** [bucket.Put(key, value)] *)
Definition Put (tx : Tx) (key : string) (value : bytes) : option error * Tx :=
  match put_fault tx key value with
  | Some err => (Some err, tx)
  | None => (None, set_bucket tx (<[key := value]> (bucket tx)))
  end.

(** [bucket.Delete(key)]; deleting an absent key is no error *)
Definition Delete (tx : Tx) (key : string) : option error * Tx :=
  match delete_fault tx key with
  | Some err => (Some err, tx)
  | None => (None, set_bucket tx (delete key (bucket tx)))
  end.

(** [db.Update(fn)]: run [fn] in a writable transaction, commit when it
    returns nil, roll back when it returns an error or panics. [a] is
    what [fn] leaves in the variables it captured; they keep their
    initial content [init] when the transaction cannot begin. *)
Definition Update {A} (db : DB) (init : A)
    (fn : Tx -> outcome (A * option error * Tx))
  : outcome (A * option error * DB) :=
  if opened db then
    '(a, err, tx) ← fn db;
    match err with
    | Some e => mret (a, Some e, db)
    | None =>
        match commit_fault db with
        | Some e => mret (a, Some e, db)
        | None => mret (a, None, tx)
        end
    end
  else mret (init, Some ErrDatabaseNotOpen, db).

(** [db.Close()]: the database is marked closed, then the file is
    unmapped and closed; [released] is the error of that release, which
    [Close] returns. *)
Definition Close (db : DB) (released : option error) : option error * DB :=
  (released,
   {| opened := false; bucket := bucket db; put_fault := put_fault db;
      delete_fault := delete_fault db; commit_fault := commit_fault db |}).

End bolt.

(** ** package boltstore *)

(** [int64] arithmetic wraps around *)
Definition int64 (z : Z) : Z := (z + 2 ^ 63) mod 2 ^ 64 - 2 ^ 63.

(** Modelled from the spec: the wire record [Session], the message type
    that [store.go] marshals and unmarshals; its declaration is not in
    store.go. It has the two fields of the persisted record layout;
    [load] reads [Values] as a byte slice and [ExpiresAt] through a
    pointer, so an absent field is [None]. *)
Record Session := {
  Values : bytes;
  ExpiresAt : option Z
}.

(** Modelled from the spec: [NewSession], the constructor of the wire
    record, which [save] calls and store.go does not define. The
    expiration is now + max-age when max-age is positive, else 0. *)
Definition NewSession (now : Z) (values : bytes) (maxAge : Z) : Session :=
  {| Values := values;
     ExpiresAt := Some (if 0 <? maxAge then int64 (now + maxAge) else 0) |}.

(** Modelled from the spec: [Config], whose declaration is not in
    store.go: the database options and the default cookie options. *)
Record DBOptions := {
  Path : string;
  BucketName : bytes
}.

Record Config := {
  Config_DBOptions : DBOptions;
  SessionOptions : sessions.Options
}.

(** The two serializers of the payload and of the wire record:
    encoding/gob for the values, protobuf for the record.
    [gob_Decode data v] decodes into the map [v] that the session
    already holds and yields what the map holds afterwards, with the
    decoder's error. [make_Values] is the empty map of a new session. *)
Class Encodings (V : Type) := {
  make_Values : V;
  gob_Encode : V -> error + bytes;
  gob_Decode : bytes -> V -> V * option error;
  proto_Marshal : Session -> error + bytes;
  proto_Unmarshal : bytes -> error + Session
}.

(** store represents a session store. *)
Record store := {
  codecs : list securecookie.Codec;
  config : Config;
  db : bolt.DB
}.

Definition set_db (s : store) (d : bolt.DB) : store :=
  {| codecs := codecs s; config := config s; db := d |}.

(** What an operation leaves behind: the values it returns, the session
    it was given (as mutated through the pointer) and the database. *)
Record Loaded (V : Type) := {
  l_ok : bool;
  l_err : option error;
  l_session : sessions.Session V;
  l_db : bolt.DB
}.
Arguments l_ok {V} _.
Arguments l_err {V} _.
Arguments l_session {V} _.
Arguments l_db {V} _.

Record Stored := {
  st_err : option error;
  st_db : bolt.DB
}.

Record Found (V : Type) := {
  f_session : sessions.Session V;
  f_err : option error;
  f_db : bolt.DB
}.
Arguments f_session {V} _.
Arguments f_err {V} _.
Arguments f_db {V} _.

Record Saved (V : Type) := {
  s_err : option error;
  s_session : sessions.Session V;
  s_w : http.ResponseWriter;
  s_db : bolt.DB
}.
Arguments s_err {V} _.
Arguments s_session {V} _.
Arguments s_w {V} _.
Arguments s_db {V} _.

Section Store.

Context {V : Type} {enc : Encodings V}.

(** [*sessionData.ExpiresAt > 0 && *sessionData.ExpiresAt < time.Now().Unix()] *)
Definition expired (expiresAt now : Z) : bool :=
  (0 <? expiresAt) && (expiresAt <? now).

(** load loads a session data from the database.
    True is returned if there is a session data in the database. *)
Definition load (s : store) (now : Z) (session : sessions.Session V)
  : outcome (Loaded V) :=
  '(captured, err, db') ←
    bolt.Update (db s) (false, sessions.Values session) (fun tx =>
      let id := sessions.ID session in
      match bolt.Get tx id with
      | None => mret ((false, sessions.Values session), None, tx)
      | Some data =>
          match proto_Unmarshal data with
          | inl err => mret ((false, sessions.Values session), Some err, tx)
          | inr sessionData =>
              match ExpiresAt sessionData with
              | None => Panic "invalid memory address or nil pointer dereference"
              | Some expiresAt =>
                  if expired expiresAt now then
                    match bolt.Delete tx id with
                    | (Some err, tx') =>
                        mret ((false, sessions.Values session), Some err, tx')
                    | (None, tx') =>
                        mret ((false, sessions.Values session), None, tx')
                    end
                  else
                    let '(values, err) :=
                      gob_Decode (Values sessionData) (sessions.Values session) in
                    mret ((true, values), err, tx)
              end
          end
      end);
  mret {| l_ok := captured.1; l_err := err;
          l_session := sessions.set_Values session captured.2;
          l_db := db' |}.

(** delete removes the key-value from the database. *)
Definition delete (s : store) (session : sessions.Session V) : outcome Stored :=
  '(_, err, db') ←
    bolt.Update (db s) tt (fun tx =>
      let '(err, tx') := bolt.Delete tx (sessions.ID session) in
      mret (tt, err, tx'));
  match err with
  | Some e => mret {| st_err := Some e; st_db := db' |}
  | None => mret {| st_err := None; st_db := db' |}
  end.

(** save stores the session data in the database. *)
Definition save (s : store) (now : Z) (session : sessions.Session V)
  : outcome Stored :=
  match gob_Encode (sessions.Values session) with
  | inl err => mret {| st_err := Some err; st_db := db s |}
  | inr buf =>
      match proto_Marshal
              (NewSession now buf (sessions.MaxAge (sessions.Opts session))) with
      | inl _ => mret {| st_err := None; st_db := db s |}
      | inr data =>
          '(_, err, db') ←
            bolt.Update (db s) tt (fun tx =>
              let '(err, tx') := bolt.Put tx (sessions.ID session) data in
              mret (tt, err, tx'));
          mret {| st_err := err; st_db := db' |}
      end
  end.

(** New returns a session for the given name without adding it to the
    registry. The [err] that receives the result of [load] is declared
    inside the inner block; the function returns the outer one. *)
Definition New (s : store) (now : Z) (r : http.Request) (name : string)
  : outcome (Found V) :=
  let session :=
    {| sessions.ID := ""; sessions.Values := make_Values;
       sessions.Opts := SessionOptions (config s);
       sessions.IsNew := true; sessions.name := name |} in
  match http.Request_Cookie r name with
  | inr c =>
      match securecookie.DecodeMulti now name c (codecs s) with
      | inl err => mret {| f_session := session; f_err := Some err; f_db := db s |}
      | inr id =>
          l ← load s now (sessions.set_ID session id);
          let isNew :=
            negb (match l_err l with None => true | Some _ => false end && l_ok l) in
          mret {| f_session := sessions.set_IsNew (l_session l) isNew;
                  f_err := None; f_db := l_db l |}
      end
  | inl _ => mret {| f_session := session; f_err := None; f_db := db s |}
  end.

(** [sessions.GetRegistry(r).Get(s, name)] *)
Definition Registry_Get (reg : sessions.Registry V) (s : store) (now : Z)
    (r : http.Request) (name : string)
  : outcome (Found V * sessions.Registry V) :=
  match reg !! name with
  | Some (session, err) =>
      mret ({| f_session := session; f_err := err; f_db := db s |}, reg)
  | None =>
      f ← New s now r name;
      let session := sessions.set_name (f_session f) name in
      mret ({| f_session := session; f_err := f_err f; f_db := f_db f |},
            <[name := (session, f_err f)]> reg)
  end.

(** Get returns a session for the given name after adding it to the
    registry. *)
Definition Get (s : store) (now : Z) (reg : sessions.Registry V)
    (r : http.Request) (name : string)
  : outcome (Found V * sessions.Registry V) :=
  Registry_Get reg s now r name.

(** [strings.TrimRight(base32.StdEncoding.EncodeToString(key), "=")] *)
Definition new_ID (key : bytes) : string :=
  strings.TrimRight (base32.EncodeToString key) "=".

(** Save adds a single session to the response. [key] is what
    [securecookie.GenerateRandomKey(32)] yields when it is called: 32
    bytes, or the nil slice when the random source fails. *)
Definition Save (s : store) (now : Z) (key : bytes) (r : http.Request)
    (w : http.ResponseWriter) (session : sessions.Session V)
  : outcome (Saved V) :=
  if sessions.MaxAge (sessions.Opts session) <? 0 then
    d ← delete s session;
    mret {| s_err := None; s_session := session;
            s_w := http.SetCookie w
                     (sessions.NewCookie now (sessions.Name session) ""
                        (sessions.Opts session));
            s_db := st_db d |}
  else
    let session :=
      if String.eqb (sessions.ID session) "" then
        sessions.set_ID session (new_ID key)
      else session in
    st ← save s now session;
    match st_err st with
    | Some err =>
        mret {| s_err := Some err; s_session := session; s_w := w;
                s_db := st_db st |}
    | None =>
        match securecookie.EncodeMulti now (sessions.Name session)
                (sessions.ID session) (codecs s) with
        | inl err =>
            mret {| s_err := Some err; s_session := session; s_w := w;
                    s_db := st_db st |}
        | inr encoded =>
            mret {| s_err := None; s_session := session;
                    s_w := http.SetCookie w
                             (sessions.NewCookie now (sessions.Name session)
                                encoded (sessions.Opts session));
                    s_db := st_db st |}
        end
    end.

(** Close closes the database. *)
Definition Close (s : store) (released : option error) : option error * bolt.DB :=
  bolt.Close (db s) released.

End Store.

(** ** A reference instance

    Small, executable serializers and a codec to run the store on
    concrete requests: string-to-string payloads, length-prefixed
    entries, a record with a presence flag and eight big-endian bytes of
    expiration, and a cookie codec that prefixes the cookie name. *)
Module reference.

Definition byte_of_Z (z : Z) : byte :=
  match Byte.of_N (Z.to_N (z mod 256)) with
  | Some b => b
  | None => x00
  end.

Definition put_string (s : string) : error + bytes :=
  if (String.length s <? 256)%nat then
    inr (byte_of_Z (Z.of_nat (String.length s)) :: list_byte_of_string s)
  else inl "value too long".

Fixpoint put_entries (l : list (string * string)) : error + bytes :=
  match l with
  | [] => inr []
  | (k, v) :: rest =>
      match put_string k, put_string v, put_entries rest with
      | inr bk, inr bv, inr br => inr (bk ++ bv ++ br)
      | inl e, _, _ => inl e
      | _, inl e, _ => inl e
      | _, _, inl e => inl e
      end
  end.

Definition get_string (data : bytes) : option (string * bytes) :=
  match data with
  | [] => None
  | n :: rest =>
      let len := Byte.to_nat n in
      if (len <=? length rest)%nat then
        Some (string_of_list_byte (take len rest), drop len rest)
      else None
  end.

Fixpoint get_entries (fuel : nat) (data : bytes) (m : gmap string string)
  : gmap string string * option error :=
  match data, fuel with
  | [], _ => (m, None)
  | _, O => (m, Some "gob: out of fuel")
  | _, S fuel' =>
      match get_string data with
      | None => (m, Some "gob: unexpected EOF")
      | Some (k, rest) =>
          match get_string rest with
          | None => (m, Some "gob: unexpected EOF")
          | Some (v, rest') => get_entries fuel' rest' (<[k := v]> m)
          end
      end
  end.

Definition be64 (z : Z) : bytes :=
  map (fun i => byte_of_Z (Z.shiftr (z mod 2 ^ 64) (8 * i))) [7; 6; 5; 4; 3; 2; 1; 0].

Definition of_be64 (l : bytes) : Z :=
  int64 (fold_left (fun acc b => acc * 256 + Z.of_N (Byte.to_N b)) l 0).

Definition Marshal (m : Session) : error + bytes :=
  match ExpiresAt m with
  | Some e => inr (x01 :: be64 e ++ Values m)
  | None => inr (x00 :: Values m)
  end.

Definition Unmarshal (data : bytes) : error + Session :=
  match data with
  | x00 :: rest => inr {| Values := rest; ExpiresAt := None |}
  | x01 :: rest =>
      if (8 <=? length rest)%nat then
        inr {| Values := drop 8 rest; ExpiresAt := Some (of_be64 (take 8 rest)) |}
      else inl "proto: unexpected EOF"
  | _ => inl "proto: bad wiretype"
  end.

#[export] Instance encodings : Encodings (gmap string string) := {|
  make_Values := ∅;
  gob_Encode := fun m => put_entries (map_to_list m);
  gob_Decode := fun data m => get_entries (length data) data m;
  proto_Marshal := Marshal;
  proto_Unmarshal := Unmarshal
|}.

(** a wire-record marshaller that refuses every record *)
Definition failing_marshal : Encodings (gmap string string) := {|
  make_Values := ∅;
  gob_Encode := fun m => put_entries (map_to_list m);
  gob_Decode := fun data m => get_entries (length data) data m;
  proto_Marshal := fun _ => inl "proto: required field not set";
  proto_Unmarshal := Unmarshal
|}.

Definition codec : securecookie.Codec := {|
  securecookie.Encode := fun _ name value => inr (name +:+ "|" +:+ value);
  securecookie.Decode := fun _ name value =>
    let tag := name +:+ "|" in
    if String.prefix tag value then
      inr (String.substring (String.length tag)
             (String.length value - String.length tag) value)
    else inl "securecookie: the value is not valid"
|}.

Definition options (maxAge : Z) : sessions.Options := {|
  sessions.Path := "/"; sessions.Domain := ""; sessions.MaxAge := maxAge;
  sessions.Secure := false; sessions.HttpOnly := true
|}.

Definition empty_db : bolt.DB := {|
  bolt.opened := true;
  bolt.bucket := ∅;
  bolt.put_fault := fun _ _ => None;
  bolt.delete_fault := fun _ => None;
  bolt.commit_fault := None
|}.

Definition st (maxAge : Z) (d : bolt.DB) : store := {|
  codecs := [codec];
  config := {| Config_DBOptions := {| Path := "./sessions.db"; BucketName := [] |};
               SessionOptions := options maxAge |};
  db := d
|}.

Definition session (id : string) (maxAge : Z) (values : gmap string string)
  : sessions.Session (gmap string string) := {|
  sessions.ID := id; sessions.Values := values;
  sessions.Opts := options maxAge; sessions.IsNew := true;
  sessions.name := "app"
|}.

(** the encoded payload uid = 42 and a wire record that holds it *)
Definition payload : bytes :=
  [x03; x75; x69; x64; x02; x34; x32]%byte.

Definition record (expiresAt : Z) : bytes :=
  (x01 :: be64 expiresAt ++ payload)%byte.

(** a database whose bucket holds [data] under [id] *)
Definition db_with (id : string) (data : bytes) : bolt.DB :=
  bolt.set_bucket empty_db {[ id := data ]}.

(** the database after [Close] *)
Definition closed (d : bolt.DB) : bolt.DB := (bolt.Close d None).2.

(** a request that carries the cookie app = app|sid *)
Definition request (id : string) : http.Request :=
  {| http.Cookies := [("app", "app|" +:+ id)] |}.

(** the bytes 0, 1, ..., n-1 *)
Definition key (n : nat) : bytes := map (fun i => byte_of_Z (Z.of_nat i)) (seq 0 n).

End reference.

(** ** What the libraries give a store built by [New(config, keyPairs...)]

    [codec] is a codec as [securecookie.CodecsFromPairs] builds it,
    without the cryptography: the value travels with the cookie name and
    the time of encoding, and [Decode] refuses another name and a time
    stamp older than [maxAge] seconds. The library's default is 30 days
    and store.go never changes it. [database] is an empty open database whose
    [Put] checks the key as the engine does. *)
Module defaults.

Definition maxAge : Z := 86400 * 30.

Definition Encode (now : Z) (name value : string) : error + string :=
  inr (name +:+ "|" +:+ string_of_list_byte (reference.be64 now) +:+ value).

Definition Decode (now : Z) (name value : string) : error + string :=
  let tag := name +:+ "|" in
  if String.prefix tag value then
    let rest :=
      String.substring (String.length tag)
        (String.length value - String.length tag) value in
    if (8 <=? String.length rest)%nat then
      let t1 := reference.of_be64 (list_byte_of_string (String.substring 0 8 rest)) in
      if t1 <? now - maxAge then inl "securecookie: expired timestamp"
      else inr (String.substring 8 (String.length rest - 8) rest)
    else inl "securecookie: the value is not valid"
  else inl "securecookie: the value is not valid".

Definition codec : securecookie.Codec :=
  {| securecookie.Encode := Encode; securecookie.Decode := Decode |}.

Definition database : bolt.DB := {|
  bolt.opened := true;
  bolt.bucket := ∅;
  bolt.put_fault := bolt.validate_key;
  bolt.delete_fault := fun _ => None;
  bolt.commit_fault := None
|}.

Definition st (age : Z) (d : bolt.DB) : store := {|
  codecs := [codec];
  config := {| Config_DBOptions := {| Path := "./sessions.db"; BucketName := [] |};
               SessionOptions := reference.options age |};
  db := d
|}.

End defaults.

(** ** Notions used to state the properties *)

(** a letter or a digit *)
Definition is_alnum (c : ascii) : bool :=
  let n := nat_of_ascii c in
  ((65 <=? n) && (n <=? 90) || (97 <=? n) && (n <=? 122) || (48 <=? n) && (n <=? 57))%nat.

Fixpoint all_alnum (s : string) : bool :=
  match s with
  | EmptyString => true
  | String c rest => is_alnum c && all_alnum rest
  end.

(** the encoded part of [base32.EncodeToString src] and the number of
    padding bytes after it *)
Fixpoint encode_body (src : bytes) : string :=
  let v := base32.byte_val in
  let group n s0 s1 s2 s3 s4 :=
    base32.string_of_chars (map base32.encode (take n (base32.blocks s0 s1 s2 s3 s4))) in
  match src with
  | [] => EmptyString
  | [a] => group 2%nat (v a) 0 0 0 0
  | [a; b] => group 4%nat (v a) (v b) 0 0 0
  | [a; b; c] => group 5%nat (v a) (v b) (v c) 0 0
  | [a; b; c; d] => group 7%nat (v a) (v b) (v c) (v d) 0
  | a :: b :: c :: d :: e :: rest =>
      group 8%nat (v a) (v b) (v c) (v d) (v e) +:+ encode_body rest
  end.

Fixpoint encode_pad (n : nat) : nat :=
  match n with
  | 0 => 0
  | 1 => 6
  | 2 => 4
  | 3 => 3
  | 4 => 1
  | S (S (S (S (S m)))) => encode_pad m
  end%nat.

Fixpoint body_len (n : nat) : nat :=
  match n with
  | 0 => 0
  | 1 => 2
  | 2 => 4
  | 3 => 5
  | 4 => 7
  | S (S (S (S (S m)))) => 8 + body_len m
  end%nat.

(** the backing store accepts a transaction that writes [data] under
    [key] / deletes [key] / only reads *)
Definition accepts_read (d : bolt.DB) : Prop :=
  bolt.opened d = true /\ bolt.commit_fault d = None.

Definition accepts_put (d : bolt.DB) (key : string) (data : bytes) : Prop :=
  accepts_read d /\ bolt.put_fault d key data = None.

Definition accepts_delete (d : bolt.DB) (key : string) : Prop :=
  accepts_read d /\ bolt.delete_fault d key = None.

(** ** Reading an identifier back

    The inverse of the base-32 body, used to show that the identifier
    determines the key it was made from. *)

(** the value of a byte of the alphabet *)
Definition decode_char (c : ascii) : Z :=
  let n := Z.of_nat (nat_of_ascii c) in
  if (65 <=? n) && (n <=? 90) then n - 65
  else if (50 <=? n) && (n <=? 55) then n - 24
  else 0.

(** five bytes out of eight 5-bit blocks *)
Definition unblocks (bl : list Z) : list Z :=
  match bl with
  | [b0; b1; b2; b3; b4; b5; b6; b7] =>
      [ b0 * 8 + b1 / 4;
        (b1 mod 4) * 64 + b2 * 2 + b3 / 16;
        (b3 mod 16) * 16 + b4 / 2;
        (b4 mod 2) * 128 + b5 * 4 + b6 / 8;
        (b6 mod 8) * 32 + b7 ]
  | _ => []
  end.

(** a group of at most eight characters, the missing blocks being zero *)
Definition decode_group (cs : list ascii) : bytes :=
  map reference.byte_of_Z
    (unblocks (map decode_char cs ++ replicate (8 - length cs) 0)).

Fixpoint decode_body (s : string) : bytes :=
  match s with
  | String c0 (String c1 (String c2 (String c3
      (String c4 (String c5 (String c6 (String c7 rest))))))) =>
      decode_group [c0; c1; c2; c3; c4; c5; c6; c7] ++ decode_body rest
  | String c0 (String c1 (String c2 (String c3
      (String c4 (String c5 (String c6 EmptyString)))))) =>
      take 4 (decode_group [c0; c1; c2; c3; c4; c5; c6])
  | String c0 (String c1 (String c2 (String c3 (String c4 EmptyString)))) =>
      take 3 (decode_group [c0; c1; c2; c3; c4])
  | String c0 (String c1 (String c2 (String c3 EmptyString))) =>
      take 2 (decode_group [c0; c1; c2; c3])
  | String c0 (String c1 EmptyString) =>
      take 1 (decode_group [c0; c1])
  | _ => []
  end.

(** the values of a byte, to check a property of bytes by running it *)
Definition all_bytes : list Z := map Z.of_nat (seq 0 256).

Definition holds_on_bytes (P : Z -> bool) : bool := forallb P all_bytes.

Definition holds_on_byte_pairs (P : Z -> Z -> bool) : bool :=
  forallb (fun x => forallb (P x) all_bytes) all_bytes.

(** * Properties *)

(** ** Library functions on concrete inputs *)

Example base32_foobar :
  base32.EncodeToString [x66; x6f; x6f; x62; x61; x72]%byte = "MZXW6YTBOI======".
Proof. reflexivity. Qed.

Example base32_fo : base32.EncodeToString [x66; x6f]%byte = "MZXQ====".
Proof. reflexivity. Qed.

Example trim_fo : strings.TrimRight "MZXQ====" "=" = "MZXQ".
Proof. reflexivity. Qed.

Example trim_inner : strings.TrimRight "a=b==" "=" = "a=b".
Proof. reflexivity. Qed.

(** ** base32 and TrimRight *)

Lemma list_ind5 {A} (P : list A -> Prop) :
  P [] ->
  (forall a, P [a]) ->
  (forall a b, P [a; b]) ->
  (forall a b c, P [a; b; c]) ->
  (forall a b c d, P [a; b; c; d]) ->
  (forall a b c d e rest, P rest -> P (a :: b :: c :: d :: e :: rest)) ->
  forall l, P l.
Proof.
  intros H0 H1 H2 H3 H4 H5.
  fix IH 1.
  intros [|a [|b [|c [|d [|e rest]]]]].
  - exact H0.
  - apply H1.
  - apply H2.
  - apply H3.
  - apply H4.
  - apply H5, IH.
Qed.

Lemma byte_val_range (b : byte) : 0 <= base32.byte_val b < 256.
Proof.
  unfold base32.byte_val.
  pose proof (Byte.to_N_bounded b). lia.
Qed.

Lemma land31_range (x : Z) : 0 <= x -> 0 <= Z.land x 31 < 32.
Proof.
  intros Hx. change 31 with (Z.ones 5).
  rewrite Z.land_ones by lia. apply Z.mod_pos_bound. lia.
Qed.

Lemma lor_range5 (a b : Z) :
  0 <= a < 32 -> 0 <= b < 32 -> 0 <= Z.lor a b < 32.
Proof.
  intros Ha Hb. split; [apply Z.lor_nonneg; lia|].
  destruct (Z.eq_dec (Z.lor a b) 0) as [->|Hne]; [lia|].
  assert (0 < Z.lor a b) by (pose proof (proj2 (Z.lor_nonneg a b)); lia).
  change 32 with (2 ^ 5). apply Z.log2_lt_pow2; [lia|].
  rewrite Z.log2_lor by lia.
  assert (Z.log2 a < 5).
  { destruct (Z.eq_dec a 0) as [->|]; [reflexivity|].
    apply Z.log2_lt_pow2; lia. }
  assert (Z.log2 b < 5).
  { destruct (Z.eq_dec b 0) as [->|]; [reflexivity|].
    apply Z.log2_lt_pow2; lia. }
  lia.
Qed.

Lemma shr8_range (x k : Z) : 0 <= x < 256 -> 3 <= k -> 0 <= base32.shr8 x k < 32.
Proof.
  intros Hx Hk. unfold base32.shr8. rewrite Z.shiftr_div_pow2 by lia.
  assert (8 <= 2 ^ k).
  { change 8 with (2 ^ 3). apply Z.pow_le_mono_r; lia. }
  split; [apply Z.div_pos; lia|].
  apply Z.div_lt_upper_bound; lia.
Qed.

Lemma shr8_nonneg (x k : Z) : 0 <= x -> 0 <= base32.shr8 x k.
Proof. intros. unfold base32.shr8. apply Z.shiftr_nonneg. lia. Qed.

Lemma shl8_nonneg (x k : Z) : 0 <= base32.shl8 x k.
Proof. unfold base32.shl8. apply Z.land_nonneg. lia. Qed.

Lemma blocks_range (s0 s1 s2 s3 s4 : Z) :
  0 <= s0 < 256 -> 0 <= s1 < 256 -> 0 <= s2 < 256 ->
  0 <= s3 < 256 -> 0 <= s4 < 256 ->
  Forall (fun b => 0 <= b < 32) (base32.blocks s0 s1 s2 s3 s4).
Proof.
  intros. unfold base32.blocks.
  repeat apply Forall_cons_2; try apply Forall_nil_2;
    repeat first
      [ apply lor_range5
      | apply land31_range
      | apply shr8_range; [lia | lia]
      | apply shr8_nonneg; lia
      | apply shl8_nonneg
      | lia ].
Qed.

Lemma encode_is_alnum (b : Z) : 0 <= b < 32 -> is_alnum (base32.encode b) = true.
Proof.
  intros Hb. unfold base32.encode.
  assert (Hn : (Z.to_nat b < 32)%nat) by lia.
  generalize dependent (Z.to_nat b). intros n Hn.
  do 32 (destruct n as [|n]; [reflexivity|]). lia.
Qed.

Lemma append_cons (x : ascii) (a b : string) :
  String x a +:+ b = String x (a +:+ b).
Proof. reflexivity. Qed.

Lemma string_of_chars_app (a b : list ascii) :
  base32.string_of_chars (a ++ b)
  = base32.string_of_chars a +:+ base32.string_of_chars b.
Proof.
  induction a as [|c a IH]; [reflexivity|].
  change (base32.string_of_chars ((c :: a) ++ b))
    with (String c (base32.string_of_chars (a ++ b))).
  now rewrite IH.
Qed.

Lemma append_assoc (a b c : string) : (a +:+ b) +:+ c = a +:+ (b +:+ c).
Proof.
  induction a as [|x a IH]; [reflexivity|].
  rewrite !append_cons. now rewrite IH.
Qed.

Lemma append_empty_r (a : string) : a +:+ "" = a.
Proof.
  induction a as [|x a IH]; [reflexivity|].
  rewrite append_cons. now rewrite IH.
Qed.

Lemma append_length (a b : string) :
  String.length (a +:+ b) = (String.length a + String.length b)%nat.
Proof.
  induction a as [|x a IH]; [reflexivity|].
  rewrite append_cons. simpl. now rewrite IH.
Qed.

Lemma all_alnum_app (a b : string) :
  all_alnum (a +:+ b) = all_alnum a && all_alnum b.
Proof.
  induction a as [|x a IH]; [reflexivity|].
  rewrite append_cons. simpl. rewrite IH. now rewrite andb_assoc.
Qed.

Lemma all_alnum_encoded (l : list Z) :
  Forall (fun b => 0 <= b < 32) l ->
  all_alnum (base32.string_of_chars (map base32.encode l)) = true.
Proof.
  induction 1 as [|b l Hb _ IH]; simpl; [reflexivity|].
  now rewrite encode_is_alnum, IH.
Qed.

Lemma group_alnum (n : nat) (a b c d e : Z) :
  0 <= a < 256 -> 0 <= b < 256 -> 0 <= c < 256 -> 0 <= d < 256 -> 0 <= e < 256 ->
  all_alnum
    (base32.string_of_chars (map base32.encode (take n (base32.blocks a b c d e))))
  = true.
Proof.
  intros. apply all_alnum_encoded, Forall_take, blocks_range; assumption.
Qed.

Lemma EncodeToString_cons5 (a b c d e : byte) (rest : bytes) :
  base32.EncodeToString (a :: b :: c :: d :: e :: rest)
  = base32.quantum 8 (base32.byte_val a) (base32.byte_val b)
      (base32.byte_val c) (base32.byte_val d) (base32.byte_val e)
    +:+ base32.EncodeToString rest.
Proof. reflexivity. Qed.

Lemma encode_body_cons5 (a b c d e : byte) (rest : bytes) :
  encode_body (a :: b :: c :: d :: e :: rest)
  = base32.string_of_chars
      (map base32.encode
         (take 8 (base32.blocks (base32.byte_val a) (base32.byte_val b)
                    (base32.byte_val c) (base32.byte_val d) (base32.byte_val e))))
    +:+ encode_body rest.
Proof. reflexivity. Qed.

Lemma EncodeToString_split (src : bytes) :
  base32.EncodeToString src
  = encode_body src
    +:+ base32.string_of_chars (replicate (encode_pad (length src)) "="%char).
Proof.
  induction src as [|a|a b|a b c|a b c d|a b c d e rest IH] using list_ind5;
    try reflexivity.
  rewrite EncodeToString_cons5, encode_body_cons5, IH.
  unfold base32.quantum.
  rewrite string_of_chars_app. simpl replicate at 1.
  change (base32.string_of_chars []) with EmptyString.
  rewrite append_empty_r, append_assoc. reflexivity.
Qed.

Lemma encode_body_alnum (src : bytes) : all_alnum (encode_body src) = true.
Proof.
  pose proof byte_val_range as Hr.
  induction src as [|a|a b|a b c|a b c d|a b c d e rest IH] using list_ind5;
    try reflexivity;
    try (apply group_alnum; first [apply Hr | lia]).
  rewrite encode_body_cons5, all_alnum_app, IH, group_alnum by apply Hr.
  reflexivity.
Qed.

Lemma encode_body_length (src : bytes) :
  String.length (encode_body src) = body_len (length src).
Proof.
  induction src as [|a|a b|a b c|a b c d|a b c d e rest IH] using list_ind5;
    try reflexivity.
  rewrite encode_body_cons5, append_length, IH. reflexivity.
Qed.

Lemma is_alnum_not_pad (c : ascii) :
  is_alnum c = true -> strings.IndexByte "=" c = false.
Proof.
  intros Hc. simpl. destruct (Ascii.eqb_spec c "="%char) as [->|]; [|reflexivity].
  discriminate Hc.
Qed.

Lemma TrimRight_padding (k : nat) :
  strings.TrimRight (base32.string_of_chars (replicate k "="%char)) "=" = "".
Proof. induction k as [|k IH]; simpl; [reflexivity | now rewrite IH]. Qed.

Lemma TrimRight_body (body : string) (k : nat) :
  all_alnum body = true ->
  strings.TrimRight (body +:+ base32.string_of_chars (replicate k "="%char)) "="
  = body.
Proof.
  induction body as [|c body IH]; intros Hb.
  - apply TrimRight_padding.
  - simpl in Hb. apply andb_prop in Hb as [Hc Hb].
    change (strings.TrimRight
              (String c body +:+ base32.string_of_chars (replicate k "="%char)) "=")
      with (match strings.TrimRight
                    (body +:+ base32.string_of_chars (replicate k "="%char)) "=" with
            | EmptyString =>
                if strings.IndexByte "=" c then EmptyString else String c EmptyString
            | kept => String c kept
            end).
    rewrite (IH Hb), (is_alnum_not_pad c Hc). destruct body; reflexivity.
Qed.

Lemma new_ID_body (key : bytes) : new_ID key = encode_body key.
Proof.
  unfold new_ID. rewrite EncodeToString_split.
  apply TrimRight_body, encode_body_alnum.
Qed.

Example new_ID_0_31 :
  new_ID (reference.key 32) = "AAAQEAYEAUDAOCAJBIFQYDIOB4IBCEQTCQKRMFYYDENBWHA5DYPQ".
Proof. reflexivity. Qed.

Example new_ID_nil : new_ID [] = "".
Proof. reflexivity. Qed.

(** ** The store's transactions *)

Section StoreFacts.

Context {V : Type} {enc : Encodings V}.
Implicit Types (s : store) (session : sessions.Session V).

Ltac run_tx :=
  unfold delete, save, load, bolt.Update, bolt.Put, bolt.Delete, bolt.Get,
    accepts_put, accepts_delete, accepts_read in *;
  simpl in *.

Lemma delete_returns s session : exists st, delete s session = Ret st.
Proof.
  run_tx. destruct (bolt.opened (db s)); simpl; [|eauto].
  destruct (bolt.delete_fault (db s) (sessions.ID session)); simpl; [eauto|].
  destruct (bolt.commit_fault (db s)); simpl; eauto.
Qed.

Lemma delete_accepted s session :
  accepts_delete (db s) (sessions.ID session) ->
  delete s session
  = Ret {| st_err := None;
           st_db := bolt.set_bucket (db s)
                      (base.delete (sessions.ID session) (bolt.bucket (db s))) |}.
Proof.
  run_tx. intros [[-> ->] ->]. reflexivity.
Qed.

Lemma delete_closed s session :
  bolt.opened (db s) = false ->
  delete s session
  = Ret {| st_err := Some bolt.ErrDatabaseNotOpen; st_db := db s |}.
Proof. run_tx. intros ->. reflexivity. Qed.

Lemma save_returns s now session : exists st, save s now session = Ret st.
Proof.
  run_tx. destruct (gob_Encode _); [eauto|].
  destruct (proto_Marshal _); [eauto|].
  destruct (bolt.opened (db s)); simpl; [|eauto].
  destruct (bolt.put_fault (db s) _ _); simpl; [eauto|].
  destruct (bolt.commit_fault (db s)); simpl; eauto.
Qed.

Lemma save_accepted s now session buf data :
  gob_Encode (sessions.Values session) = inr buf ->
  proto_Marshal (NewSession now buf (sessions.MaxAge (sessions.Opts session)))
  = inr data ->
  accepts_put (db s) (sessions.ID session) data ->
  save s now session
  = Ret {| st_err := None;
           st_db := bolt.set_bucket (db s)
                      (<[sessions.ID session := data]> (bolt.bucket (db s))) |}.
Proof.
  run_tx. intros -> -> [[-> ->] ->]. reflexivity.
Qed.

(** the values-marshal error is returned *)
Lemma save_gob_error s now session err :
  gob_Encode (sessions.Values session) = inl err ->
  save s now session = Ret {| st_err := Some err; st_db := db s |}.
Proof. run_tx. intros ->. reflexivity. Qed.

(** the record-marshal error is not: [save] returns nil and writes
    nothing *)
Lemma save_proto_error s now session buf err :
  gob_Encode (sessions.Values session) = inr buf ->
  proto_Marshal (NewSession now buf (sessions.MaxAge (sessions.Opts session)))
  = inl err ->
  save s now session = Ret {| st_err := None; st_db := db s |}.
Proof. run_tx. intros -> ->. reflexivity. Qed.

(** a failed transaction leaves the database as it was *)
Lemma save_error_rolls_back s now session st err :
  save s now session = Ret st -> st_err st = Some err -> st_db st = db s.
Proof.
  run_tx. destruct (gob_Encode _); [intros [= <-]; reflexivity|].
  destruct (proto_Marshal _); [intros [= <-]; reflexivity|].
  destruct (bolt.opened (db s)); simpl; [|intros [= <-]; reflexivity].
  destruct (bolt.put_fault (db s) _ _); simpl; [intros [= <-]; reflexivity|].
  destruct (bolt.commit_fault (db s)); simpl; intros [= <-]; [reflexivity|].
  discriminate.
Qed.

Lemma Save_returns s now key r w session :
  exists sv, Save s now key r w session = Ret sv.
Proof.
  unfold Save. destruct (_ <? 0).
  - destruct (delete_returns s session) as [st ->]. simpl. eauto.
  - match goal with |- context [save s now ?x] =>
      destruct (save_returns s now x) as [st ->] end.
    simpl. destruct (st_err st); [eauto|].
    destruct (securecookie.EncodeMulti _ _ _ _); eauto.
Qed.

(** When the write to the bucket is attempted and fails, [Save]
    returns the error and sets no cookie. *)
Lemma Save_error_no_cookie s now key r w session sv err :
  Save s now key r w session = Ret sv ->
  s_err sv = Some err ->
  s_w sv = w.
Proof.
  unfold Save. destruct (_ <? 0).
  - destruct (delete_returns s session) as [st ->]. simpl.
    intros [= <-]. discriminate.
  - match goal with |- context [save s now ?x] =>
      destruct (save_returns s now x) as [st ->] end.
    simpl. destruct (st_err st); [intros [= <-]; reflexivity|].
    destruct (securecookie.EncodeMulti _ _ _ _); intros [= <-];
      [reflexivity | discriminate].
Qed.

(** With the record marshaller failing, [Save] reports success: it
    leaves the database as it was and sets the cookie. *)
Lemma Save_record_marshal_error s now key r w session buf err encoded :
  0 <= sessions.MaxAge (sessions.Opts session) ->
  sessions.ID session <> "" ->
  gob_Encode (sessions.Values session) = inr buf ->
  proto_Marshal (NewSession now buf (sessions.MaxAge (sessions.Opts session)))
  = inl err ->
  securecookie.EncodeMulti now (sessions.Name session) (sessions.ID session)
    (codecs s) = inr encoded ->
  Save s now key r w session
  = Ret {| s_err := None; s_session := session;
           s_w := w ++ [sessions.NewCookie now (sessions.Name session) encoded
                          (sessions.Opts session)];
           s_db := db s |}.
Proof.
  intros Hage Hid Hgob Hproto Hcookie. unfold Save.
  replace (sessions.MaxAge (sessions.Opts session) <? 0) with false
    by (symmetry; apply Z.ltb_ge; lia).
  replace (String.eqb (sessions.ID session) "") with false
    by (symmetry; apply String.eqb_neq; exact Hid).
  rewrite (save_proto_error s now session buf err Hgob Hproto). simpl.
  rewrite Hcookie. reflexivity.
Qed.

(** With a negative max-age [Save] returns nil whatever [delete]
    returned. *)
Lemma Save_drops_delete_error s now key r w session sv :
  sessions.MaxAge (sessions.Opts session) < 0 ->
  Save s now key r w session = Ret sv ->
  s_err sv = None.
Proof.
  intros Hneg. unfold Save.
  replace (sessions.MaxAge (sessions.Opts session) <? 0) with true
    by (symmetry; apply Z.ltb_lt; lia).
  destruct (delete_returns s session) as [st ->]. simpl.
  intros [= <-]. reflexivity.
Qed.

(** Once the cookie has decoded, [New] returns a nil error whatever
    [load] returned. *)
Lemma New_drops_load_error s now r name c id f :
  http.Request_Cookie r name = inr c ->
  securecookie.DecodeMulti now name c (codecs s) = inr id ->
  New s now r name = Ret f ->
  f_err f = None.
Proof.
  intros Hc Hdec. unfold New. rewrite Hc, Hdec.
  destruct (load s now _) as [l|msg]; simpl; [|discriminate].
  intros [= <-]. reflexivity.
Qed.

End StoreFacts.

(** ** Identifier assignment *)

(** C8: when [Save] is given a session with an empty identifier and a
    max-age that is not negative, and the random-key generator yields its
    32 bytes, the session leaves [Save] with the identifier obtained by
    base-32 encoding those bytes and trimming the trailing padding; that
    identifier is not empty, is made of letters and digits only, and has
    the fixed length 52. This holds whatever the later steps of [Save]
    return. *)
Theorem Save_assigns_identifier {V} {enc : Encodings V}
    (s : store) (now : Z) (key : bytes) (r : http.Request)
    (w : http.ResponseWriter) (session : sessions.Session V) :
  sessions.ID session = "" ->
  0 <= sessions.MaxAge (sessions.Opts session) ->
  length key = 32%nat ->
  exists sv,
    Save s now key r w session = Ret sv
    /\ sessions.ID (s_session sv)
       = strings.TrimRight (base32.EncodeToString key) "="
    /\ sessions.ID (s_session sv) <> ""
    /\ all_alnum (sessions.ID (s_session sv)) = true
    /\ String.length (sessions.ID (s_session sv)) = 52%nat.
Proof.
  intros Hid Hage Hlen.
  assert (Hbody : sessions.ID (sessions.set_ID session (new_ID key)) = encode_body key)
    by apply new_ID_body.
  assert (Hlen52 : String.length (encode_body key) = 52%nat)
    by (rewrite encode_body_length, Hlen; reflexivity).
  assert (Hshape :
    sessions.ID (sessions.set_ID session (new_ID key))
    = strings.TrimRight (base32.EncodeToString key) "="
    /\ sessions.ID (sessions.set_ID session (new_ID key)) <> ""
    /\ all_alnum (sessions.ID (sessions.set_ID session (new_ID key))) = true
    /\ String.length (sessions.ID (sessions.set_ID session (new_ID key))) = 52%nat).
  { split; [reflexivity|]. rewrite Hbody. repeat split.
    - intros Hempty. rewrite Hempty in Hlen52. discriminate.
    - apply encode_body_alnum.
    - exact Hlen52. }
  unfold Save.
  replace (sessions.MaxAge (sessions.Opts session) <? 0) with false
    by (symmetry; apply Z.ltb_ge; lia).
  rewrite Hid. simpl String.eqb. cbv iota.
  destruct (save_returns s now (sessions.set_ID session (new_ID key))) as [st ->].
  simpl. destruct (st_err st); [eexists; split; [reflexivity | exact Hshape]|].
  destruct (securecookie.EncodeMulti _ _ _ _);
    eexists; (split; [reflexivity | exact Hshape]).
Qed.

Lemma Save_assigns_identifier_witness :
  exists sv,
    Save (enc := reference.encodings) (reference.st 3600 reference.empty_db)
      1000 (reference.key 32) {| http.Cookies := [] |} []
      (reference.session "" 3600 {[ "uid" := "42" ]}) = Ret sv
    /\ sessions.ID (s_session sv)
       = strings.TrimRight (base32.EncodeToString (reference.key 32)) "="
    /\ sessions.ID (s_session sv) <> ""
    /\ all_alnum (sessions.ID (s_session sv)) = true
    /\ String.length (sessions.ID (s_session sv)) = 52%nat.
Proof.
  apply (Save_assigns_identifier (enc := reference.encodings)).
  - reflexivity.
  - simpl. lia.
  - reflexivity.
Defined.

(** with a nil key and collaborators that accept the call, the record
    goes under the empty key *)
Lemma Save_nil_key_accepted {V} {enc : Encodings V}
    (s : store) (now : Z) (r : http.Request) (w : http.ResponseWriter)
    (session : sessions.Session V) (buf data : bytes) (encoded : string) :
  sessions.ID session = "" ->
  0 <= sessions.MaxAge (sessions.Opts session) ->
  gob_Encode (sessions.Values session) = inr buf ->
  proto_Marshal (NewSession now buf (sessions.MaxAge (sessions.Opts session)))
  = inr data ->
  accepts_put (db s) "" data ->
  securecookie.EncodeMulti now (sessions.Name session) "" (codecs s) = inr encoded ->
  exists sv,
    Save s now [] r w session = Ret sv
    /\ s_err sv = None
    /\ sessions.ID (s_session sv) = ""
    /\ bolt.bucket (s_db sv) = <["" := data]> (bolt.bucket (db s))
    /\ s_w sv = w ++ [sessions.NewCookie now (sessions.Name session) encoded
                        (sessions.Opts session)].
Proof.
  intros Hid Hage Hgob Hproto Hput Hcookie.
  unfold Save.
  replace (sessions.MaxAge (sessions.Opts session) <? 0) with false
    by (symmetry; apply Z.ltb_ge; lia).
  rewrite Hid. simpl String.eqb. cbv iota.
  change (new_ID []) with "".
  rewrite (save_accepted s now (sessions.set_ID session "") buf data Hgob Hproto Hput).
  simpl. unfold sessions.Name in Hcookie. simpl in Hcookie. rewrite Hcookie.
  eexists. repeat split.
Qed.

(** C10, as amended: when the random-key generator yields no bytes (the
    nil slice) for a session with an empty identifier, the identifier
    stays the empty string and [Save], which has no guard of its own,
    goes on to write the record under the empty key. What happens then
    is the backing store's doing: where its [Put] refuses the empty key,
    as the Bolt engine does, [Save] returns that error, writes nothing
    and sets no cookie; where the store accepts the write and the codecs
    encode the empty identifier, the record is stored under the empty
    key, the cookie is set and [Save] returns nil. *)
Theorem Save_with_nil_key_outcome {V} {enc : Encodings V}
    (s : store) (now : Z) (r : http.Request) (w : http.ResponseWriter)
    (session : sessions.Session V) (buf data : bytes) :
  sessions.ID session = "" ->
  0 <= sessions.MaxAge (sessions.Opts session) ->
  gob_Encode (sessions.Values session) = inr buf ->
  proto_Marshal (NewSession now buf (sessions.MaxAge (sessions.Opts session)))
  = inr data ->
  bolt.opened (db s) = true ->
  exists sv,
    Save s now [] r w session = Ret sv
    /\ sessions.ID (s_session sv) = ""
    /\ (forall err,
          bolt.put_fault (db s) "" data = Some err ->
          s_err sv = Some err /\ s_w sv = w /\ s_db sv = db s)
    /\ (forall encoded,
          accepts_put (db s) "" data ->
          securecookie.EncodeMulti now (sessions.Name session) "" (codecs s)
          = inr encoded ->
          s_err sv = None
          /\ bolt.bucket (s_db sv) = <["" := data]> (bolt.bucket (db s))
          /\ s_w sv = w ++ [sessions.NewCookie now (sessions.Name session) encoded
                              (sessions.Opts session)]).
Proof.
  intros Hid Hage Hgob Hproto Hopen.
  destruct (Save_returns s now [] r w session) as [sv Hsv].
  exists sv. split; [exact Hsv|]. split; [|split].
  - revert Hsv. unfold Save.
    replace (sessions.MaxAge (sessions.Opts session) <? 0) with false
      by (symmetry; apply Z.ltb_ge; lia).
    rewrite Hid. simpl String.eqb. cbv iota. change (new_ID []) with "".
    destruct (save_returns s now (sessions.set_ID session "")) as [st ->].
    simpl. destruct (st_err st); [intros [= <-]; reflexivity|].
    destruct (securecookie.EncodeMulti _ _ _ _); intros [= <-]; reflexivity.
  - intros err Hfault. revert Hsv. unfold Save.
    replace (sessions.MaxAge (sessions.Opts session) <? 0) with false
      by (symmetry; apply Z.ltb_ge; lia).
    rewrite Hid. simpl String.eqb. cbv iota. change (new_ID []) with "".
    unfold save, bolt.Update, bolt.Put. simpl.
    rewrite Hgob, Hproto, Hopen. simpl. rewrite Hfault. simpl.
    intros [= <-]. repeat split.
  - intros encoded Hput Hcookie.
    destruct (Save_nil_key_accepted s now r w session buf data encoded
                Hid Hage Hgob Hproto Hput Hcookie)
      as (sv' & Hsv' & Herr & _ & Hbucket & Hw).
    rewrite Hsv in Hsv'. injection Hsv' as <-. auto.
Qed.

Lemma Save_with_nil_key_outcome_witness :
  exists sv,
    Save (enc := reference.encodings) (defaults.st 3600 defaults.database)
      1000 [] {| http.Cookies := [] |} [] (reference.session "" 3600 ∅) = Ret sv
    /\ sessions.ID (s_session sv) = ""
    /\ (forall err,
          bolt.put_fault (db (defaults.st 3600 defaults.database)) ""
            (x01 :: reference.be64 4600)%byte = Some err ->
          s_err sv = Some err /\ s_w sv = []
          /\ s_db sv = db (defaults.st 3600 defaults.database))
    /\ (forall encoded,
          accepts_put (db (defaults.st 3600 defaults.database)) ""
            (x01 :: reference.be64 4600)%byte ->
          securecookie.EncodeMulti 1000 "app" ""
            (codecs (defaults.st 3600 defaults.database)) = inr encoded ->
          s_err sv = None
          /\ bolt.bucket (s_db sv)
             = <["" := (x01 :: reference.be64 4600)%byte]>
                 (bolt.bucket (db (defaults.st 3600 defaults.database)))
          /\ s_w sv = [] ++ [sessions.NewCookie 1000 "app" encoded
                               (reference.options 3600)]).
Proof.
  refine (Save_with_nil_key_outcome (enc := reference.encodings)
            (defaults.st 3600 defaults.database) 1000 {| http.Cookies := [] |} []
            (reference.session "" 3600 ∅) [] (x01 :: reference.be64 4600)%byte
            _ _ _ _ _).
  - reflexivity.
  - simpl. lia.
  - reflexivity.
  - reflexivity.
  - reflexivity.
Defined.

(** C10, as stated, fails on a store whose [Put] checks the key as the
    Bolt engine does: with a nil key the identifier stays empty, the
    write under the empty key is refused with [ErrKeyRequired], and
    [Save] returns that error, having stored nothing and set no
    cookie. *)
Lemma Save_with_nil_key_counterexample :
  sessions.ID (reference.session "" 3600 ∅) = ""
  /\ new_ID [] = ""
  /\ Save (enc := reference.encodings) (defaults.st 3600 defaults.database)
       1000 [] {| http.Cookies := [] |} [] (reference.session "" 3600 ∅)
     = Ret {| s_err := Some bolt.ErrKeyRequired;
              s_session := reference.session "" 3600 ∅;
              s_w := [];
              s_db := defaults.database |}
  /\ bolt.bucket defaults.database !! "" = None.
Proof. repeat split. Qed.

(** ** Loading *)

Ltac run_load :=
  unfold load, bolt.Update, bolt.Delete, bolt.Get,
    accepts_delete, accepts_read in *;
  simpl in *.

Lemma set_Values_same {V} (session : sessions.Session V) :
  sessions.set_Values session (sessions.Values session) = session.
Proof. destruct session; reflexivity. Qed.

(** no record under the identifier *)
Lemma load_absent {V} {enc : Encodings V} (s : store) (now : Z)
    (session : sessions.Session V) :
  bolt.bucket (db s) !! sessions.ID session = None ->
  exists l,
    load s now session = Ret l
    /\ l_ok l = false
    /\ l_session l = session
    /\ l_db l = db s
    /\ (accepts_read (db s) -> l_err l = None).
Proof.
  intros Hget. run_load. rewrite Hget.
  destruct (bolt.opened (db s)) eqn:Hopen; simpl.
  - destruct (bolt.commit_fault (db s)) eqn:Hcommit; simpl;
      eexists; repeat split; simpl; try apply set_Values_same.
    intros [_ [=]].
  - eexists; repeat split; simpl; try apply set_Values_same.
    intros [[=] _].
Qed.

(** an expired record under the identifier *)
Lemma load_expired {V} {enc : Encodings V} (s : store) (now : Z)
    (session : sessions.Session V) (data : bytes) (sessionData : Session)
    (expiresAt : Z) :
  bolt.bucket (db s) !! sessions.ID session = Some data ->
  proto_Unmarshal data = inr sessionData ->
  ExpiresAt sessionData = Some expiresAt ->
  expired expiresAt now = true ->
  exists l,
    load s now session = Ret l
    /\ l_ok l = false
    /\ l_session l = session
    /\ (accepts_delete (db s) (sessions.ID session) ->
        l_err l = None
        /\ l_db l = bolt.set_bucket (db s)
                      (base.delete (sessions.ID session) (bolt.bucket (db s)))).
Proof.
  intros Hget Hun Hexp Hpast. run_load.
  destruct (bolt.opened (db s)) eqn:Hopen; simpl.
  - rewrite Hget, Hun, Hexp, Hpast.
    destruct (bolt.delete_fault (db s) (sessions.ID session)) eqn:Hdel; simpl.
    + eexists. split; [reflexivity|]. simpl.
      split; [reflexivity|]. split; [apply set_Values_same|].
      intros [_ [=]].
    + destruct (bolt.commit_fault (db s)) eqn:Hcommit; simpl;
        (eexists; split; [reflexivity|]; simpl;
         split; [reflexivity|]; split; [apply set_Values_same|]).
      * intros [[_ [=]] _].
      * intros _. split; reflexivity.
  - eexists. split; [reflexivity|]. simpl.
    split; [reflexivity|]. split; [apply set_Values_same|].
    intros [[[=] _] _].
Qed.

(** the values change only on the path that decodes a live record *)
Lemma load_changes_values {V} {enc : Encodings V} (s : store) (now : Z)
    (session : sessions.Session V) (l : Loaded V) :
  load s now session = Ret l ->
  sessions.Values (l_session l) <> sessions.Values session ->
  exists data sessionData expiresAt,
    bolt.opened (db s) = true
    /\ bolt.bucket (db s) !! sessions.ID session = Some data
    /\ proto_Unmarshal data = inr sessionData
    /\ ExpiresAt sessionData = Some expiresAt
    /\ expired expiresAt now = false
    /\ l_ok l = true
    /\ sessions.Values (l_session l)
       = (gob_Decode (Values sessionData) (sessions.Values session)).1.
Proof.
  run_load.
  destruct (bolt.opened (db s)) eqn:Hopen; simpl;
    [|intros [= <-] Hne; exfalso; apply Hne; reflexivity].
  destruct (bolt.bucket (db s) !! sessions.ID session) as [data|] eqn:Hget; simpl.
  2:{ destruct (bolt.commit_fault (db s)); simpl;
        intros [= <-] Hne; exfalso; apply Hne; reflexivity. }
  destruct (proto_Unmarshal data) as [err|sessionData] eqn:Hun; simpl;
    [intros [= <-] Hne; exfalso; apply Hne; reflexivity|].
  destruct (ExpiresAt sessionData) as [expiresAt|] eqn:Hexp; simpl; [|discriminate].
  destruct (expired expiresAt now) eqn:Hpast; simpl.
  - destruct (bolt.delete_fault (db s) (sessions.ID session)); simpl;
      [intros [= <-] Hne; exfalso; apply Hne; reflexivity|].
    destruct (bolt.commit_fault (db s)); simpl;
      intros [= <-] Hne; exfalso; apply Hne; reflexivity.
  - destruct (gob_Decode (Values sessionData) (sessions.Values session))
      as [values [err|]] eqn:Hdec; simpl.
    + intros [= <-] _. exists data, sessionData, expiresAt.
      rewrite Hdec. repeat split; assumption.
    + destruct (bolt.commit_fault (db s)); simpl;
        intros [= <-] _; exists data, sessionData, expiresAt;
        rewrite Hdec; repeat split; assumption.
Qed.

(** C9: [load] on a session whose identifier has no record in the
    bucket, or has a record that is expired, returns false and leaves
    the session, its values included, as it was; the error is nil when
    the backing store accepts the transaction. The values of the session
    differ after [load] only if the bucket is open and holds, under the
    identifier, a record that unmarshals and is not expired, in which
    case they are what the values decoder left. *)
Theorem load_frame {V} {enc : Encodings V} (s : store) (now : Z)
    (session : sessions.Session V) :
  (bolt.bucket (db s) !! sessions.ID session = None ->
   exists l,
     load s now session = Ret l /\ l_ok l = false /\ l_session l = session
     /\ (accepts_read (db s) -> l_err l = None))
  /\ (forall data sessionData expiresAt,
        bolt.bucket (db s) !! sessions.ID session = Some data ->
        proto_Unmarshal data = inr sessionData ->
        ExpiresAt sessionData = Some expiresAt ->
        expired expiresAt now = true ->
        exists l,
          load s now session = Ret l /\ l_ok l = false /\ l_session l = session
          /\ (accepts_delete (db s) (sessions.ID session) -> l_err l = None))
  /\ (forall l,
        load s now session = Ret l ->
        sessions.Values (l_session l) <> sessions.Values session ->
        exists data sessionData expiresAt,
          bolt.opened (db s) = true
          /\ bolt.bucket (db s) !! sessions.ID session = Some data
          /\ proto_Unmarshal data = inr sessionData
          /\ ExpiresAt sessionData = Some expiresAt
          /\ expired expiresAt now = false
          /\ l_ok l = true
          /\ sessions.Values (l_session l)
             = (gob_Decode (Values sessionData) (sessions.Values session)).1).
Proof.
  split; [|split].
  - intros Hget.
    destruct (load_absent s now session Hget) as (l & Hl & Hok & Hs & _ & Herr).
    exists l. auto.
  - intros data sessionData expiresAt Hget Hun Hexp Hpast.
    destruct (load_expired s now session data sessionData expiresAt
                Hget Hun Hexp Hpast) as (l & Hl & Hok & Hs & Hacc).
    exists l. repeat split; try assumption.
    intros Ha. apply (Hacc Ha).
  - apply load_changes_values.
Qed.

(** ** Expiration *)

(** C5, as amended: a stored record whose expiration is positive and
    strictly before the time of the read is treated as not found:
    [load] returns false with a nil error, leaves the session as it
    was and deletes the record, provided the backing store accepts the
    deleting transaction; a session that [New] builds from a cookie
    naming such a record is new and has the empty values of a new
    session. *)
Theorem load_expired_record {V} {enc : Encodings V} (s : store) (now : Z)
    (data : bytes) (sessionData : Session) (expiresAt : Z) (id : string) :
  bolt.bucket (db s) !! id = Some data ->
  proto_Unmarshal data = inr sessionData ->
  ExpiresAt sessionData = Some expiresAt ->
  0 < expiresAt < now ->
  accepts_delete (db s) id ->
  (forall session : sessions.Session V,
     sessions.ID session = id ->
     load s now session
     = Ret {| l_ok := false; l_err := None; l_session := session;
              l_db := bolt.set_bucket (db s) (base.delete id (bolt.bucket (db s))) |})
  /\ (forall r name c,
        http.Request_Cookie r name = inr c ->
        securecookie.DecodeMulti now name c (codecs s) = inr id ->
        exists f,
          New s now r name = Ret f
          /\ sessions.IsNew (f_session f) = true
          /\ sessions.Values (f_session f) = make_Values
          /\ bolt.bucket (f_db f) !! id = None).
Proof.
  intros Hget Hun Hexp Hrange Hacc.
  assert (Hpast : expired expiresAt now = true).
  { unfold expired. apply andb_true_intro. split; apply Z.ltb_lt; lia. }
  assert (Hload : forall session : sessions.Session V,
     sessions.ID session = id ->
     load s now session
     = Ret {| l_ok := false; l_err := None; l_session := session;
              l_db := bolt.set_bucket (db s) (base.delete id (bolt.bucket (db s))) |}).
  { intros session Hid. subst id.
    destruct (load_expired s now session data sessionData expiresAt
                Hget Hun Hexp Hpast) as (l & Hl & Hok & Hs & Hrest).
    destruct (Hrest Hacc) as [Herr Hdb].
    rewrite Hl. destruct l; simpl in *. subst. reflexivity. }
  split; [exact Hload|].
  intros r name c Hc Hdec. unfold New. rewrite Hc, Hdec.
  rewrite Hload by reflexivity. simpl.
  eexists. repeat split. simpl. apply lookup_delete_eq.
Qed.

Lemma load_frame_witness :
  (exists l,
     load (enc := reference.encodings) (reference.st 3600 reference.empty_db) 1000
       (reference.session "sid" 3600 ∅) = Ret l
     /\ l_ok l = false /\ l_session l = reference.session "sid" 3600 ∅
     /\ (accepts_read reference.empty_db -> l_err l = None))
  /\ (exists l,
        load (enc := reference.encodings)
          (reference.st 3600 (reference.db_with "sid" (reference.record 900))) 1000
          (reference.session "sid" 3600 ∅) = Ret l
        /\ l_ok l = false /\ l_session l = reference.session "sid" 3600 ∅
        /\ (accepts_delete (reference.db_with "sid" (reference.record 900)) "sid" ->
            l_err l = None)).
Proof.
  split.
  - apply (proj1 (load_frame (enc := reference.encodings)
                    (reference.st 3600 reference.empty_db) 1000
                    (reference.session "sid" 3600 ∅))).
    reflexivity.
  - apply (proj1 (proj2 (load_frame (enc := reference.encodings)
                    (reference.st 3600 (reference.db_with "sid" (reference.record 900)))
                    1000 (reference.session "sid" 3600 ∅)))
             (reference.record 900)
             {| Values := reference.payload; ExpiresAt := Some 900 |} 900);
      reflexivity.
Defined.

Lemma load_expired_record_witness :
  (forall session : sessions.Session (gmap string string),
     sessions.ID session = "sid" ->
     load (enc := reference.encodings)
       (reference.st 3600 (reference.db_with "sid" (reference.record 900))) 1000 session
     = Ret {| l_ok := false; l_err := None; l_session := session;
              l_db := bolt.set_bucket (reference.db_with "sid" (reference.record 900))
                        (base.delete "sid" {[ "sid" := reference.record 900 ]}) |})
  /\ (forall r name c,
        http.Request_Cookie r name = inr c ->
        securecookie.DecodeMulti 1000 name c [reference.codec] = inr "sid" ->
        exists f,
          New (enc := reference.encodings)
            (reference.st 3600 (reference.db_with "sid" (reference.record 900)))
            1000 r name = Ret f
          /\ sessions.IsNew (f_session f) = true
          /\ sessions.Values (f_session f) = ∅
          /\ bolt.bucket (f_db f) !! "sid" = None).
Proof.
  apply (load_expired_record (enc := reference.encodings)
           (reference.st 3600 (reference.db_with "sid" (reference.record 900))) 1000
           (reference.record 900)
           {| Values := reference.payload; ExpiresAt := Some 900 |} 900 "sid").
  - reflexivity.
  - reflexivity.
  - reflexivity.
  - lia.
  - repeat split.
Defined.

(** C5, as stated, fails on a record whose expiration is negative: it is
    nonzero and before the time of the read, yet [load] finds the
    record, decodes its values and leaves it in the bucket. *)
Lemma load_negative_expiration_counterexample :
  bolt.bucket (reference.db_with "sid" (reference.record (-1))) !! "sid"
  = Some (reference.record (-1))
  /\ proto_Unmarshal (Encodings := reference.encodings) (reference.record (-1))
     = inr {| Values := reference.payload; ExpiresAt := Some (-1) |}
  /\ -1 <> 0 /\ -1 < 1000
  /\ accepts_delete (reference.db_with "sid" (reference.record (-1))) "sid"
  /\ load (enc := reference.encodings)
       (reference.st 3600 (reference.db_with "sid" (reference.record (-1)))) 1000
       (reference.session "sid" 3600 ∅)
     = Ret {| l_ok := true; l_err := None;
              l_session := reference.session "sid" 3600 {[ "uid" := "42" ]};
              l_db := reference.db_with "sid" (reference.record (-1)) |}
  /\ (exists f,
        New (enc := reference.encodings)
          (reference.st 3600 (reference.db_with "sid" (reference.record (-1)))) 1000
          (reference.request "sid") "app" = Ret f
        /\ sessions.IsNew (f_session f) = false
        /\ sessions.Values (f_session f) = {[ "uid" := "42" ]}
        /\ bolt.bucket (f_db f) !! "sid" = Some (reference.record (-1))).
Proof.
  repeat split; try lia.
  eexists. repeat split.
Qed.

(** ** Cookies that do not decode *)

(** C7: when the request carries a cookie of the given name and the
    secure-cookie decoding of its value fails, [New] returns a session
    that is new, with no identifier and the empty values of a new
    session, together with the decoding error; the database is not
    touched. *)
Theorem New_cookie_decode_error {V} {enc : Encodings V} (s : store) (now : Z)
    (r : http.Request) (name c : string) (err : error) :
  http.Request_Cookie r name = inr c ->
  securecookie.DecodeMulti now name c (codecs s) = inl err ->
  exists f,
    New s now r name = Ret f
    /\ f_err f = Some err
    /\ sessions.IsNew (f_session f) = true
    /\ sessions.ID (f_session f) = ""
    /\ sessions.Values (f_session f) = make_Values
    /\ f_db f = db s.
Proof.
  intros Hc Hdec. unfold New. rewrite Hc, Hdec.
  eexists. repeat split.
Qed.

Lemma New_cookie_decode_error_witness :
  exists f,
    New (enc := reference.encodings)
      (reference.st 3600 (reference.db_with "sid" (reference.record 0))) 1000
      {| http.Cookies := [("app", "tampered|sid")] |} "app" = Ret f
    /\ f_err f = Some (securecookie.MultiError ["securecookie: the value is not valid"])
    /\ sessions.IsNew (f_session f) = true
    /\ sessions.ID (f_session f) = ""
    /\ sessions.Values (f_session f) = ∅
    /\ f_db f = reference.db_with "sid" (reference.record 0).
Proof.
  apply (New_cookie_decode_error (enc := reference.encodings)
           (reference.st 3600 (reference.db_with "sid" (reference.record 0))) 1000
           {| http.Cookies := [("app", "tampered|sid")] |} "app" "tampered|sid").
  - reflexivity.
  - reflexivity.
Defined.

(** ** Deletion *)

(** C6: [Save] on a session whose max-age is negative returns nil and
    adds to the response one cookie with the session's name, an empty
    value and that same negative max-age, whether or not a record
    exists; where the backing store accepts the deleting transaction the
    bucket afterwards is the bucket without the session's record, and a
    second such [Save] returns nil again and leaves that bucket as it
    is. *)
Theorem Save_negative_max_age {V} {enc : Encodings V}
    (s : store) (now : Z) (key : bytes) (r : http.Request)
    (w : http.ResponseWriter) (session : sessions.Session V) :
  sessions.MaxAge (sessions.Opts session) < 0 ->
  exists sv c,
    Save s now key r w session = Ret sv
    /\ s_err sv = None
    /\ s_w sv = w ++ [c]
    /\ http.Name c = sessions.Name session
    /\ http.Value c = ""
    /\ http.MaxAge c = sessions.MaxAge (sessions.Opts session)
    /\ (accepts_delete (db s) (sessions.ID session) ->
        bolt.bucket (s_db sv)
        = base.delete (sessions.ID session) (bolt.bucket (db s))
        /\ bolt.bucket (s_db sv) !! sessions.ID session = None
        /\ forall now' key' r',
            exists sv',
              Save (set_db s (s_db sv)) now' key' r' (s_w sv) session = Ret sv'
              /\ s_err sv' = None
              /\ bolt.bucket (s_db sv') = bolt.bucket (s_db sv)).
Proof.
  intros Hneg. unfold Save.
  replace (sessions.MaxAge (sessions.Opts session) <? 0) with true
    by (symmetry; apply Z.ltb_lt; lia).
  destruct (delete_returns s session) as [st Hst]. rewrite Hst. simpl.
  exists {| s_err := None; s_session := session;
            s_w := http.SetCookie w
                     (sessions.NewCookie now (sessions.Name session) ""
                        (sessions.Opts session));
            s_db := st_db st |},
    (sessions.NewCookie now (sessions.Name session) "" (sessions.Opts session)).
  do 6 (split; [reflexivity|]). simpl.
  intros Hacc.
  rewrite (delete_accepted s session Hacc) in Hst. injection Hst as <-. simpl.
  split; [reflexivity|]. split; [apply lookup_delete_eq|].
  intros now' key' r'.
  rewrite delete_accepted by exact Hacc. simpl.
  eexists. split; [reflexivity|]. split; [reflexivity|]. simpl.
  apply delete_id, lookup_delete_eq.
Qed.

Lemma Save_negative_max_age_witness :
  exists sv c,
    Save (enc := reference.encodings)
      (reference.st 3600 (reference.db_with "sid" (reference.record 0))) 1000 []
      (reference.request "sid") [] (reference.session "sid" (-1) ∅) = Ret sv
    /\ s_err sv = None
    /\ s_w sv = [] ++ [c]
    /\ http.Name c = "app"
    /\ http.Value c = ""
    /\ http.MaxAge c = -1
    /\ (accepts_delete (reference.db_with "sid" (reference.record 0)) "sid" ->
        bolt.bucket (s_db sv)
        = base.delete "sid" (bolt.bucket (reference.db_with "sid" (reference.record 0)))
        /\ bolt.bucket (s_db sv) !! "sid" = None
        /\ forall now' key' r',
            exists sv',
              Save (enc := reference.encodings)
                (set_db (reference.st 3600 (reference.db_with "sid" (reference.record 0)))
                   (s_db sv)) now' key' r' (s_w sv)
                (reference.session "sid" (-1) ∅) = Ret sv'
              /\ s_err sv' = None
              /\ bolt.bucket (s_db sv') = bolt.bucket (s_db sv)).
Proof.
  apply (Save_negative_max_age (enc := reference.encodings)
           (reference.st 3600 (reference.db_with "sid" (reference.record 0))) 1000 []
           (reference.request "sid") [] (reference.session "sid" (-1) ∅)).
  simpl. lia.
Defined.

(** ** Round trip *)

Lemma lookup_own_cookie (name value : string) :
  http.Request_Cookie {| http.Cookies := [(name, value)] |} name = inr value.
Proof.
  unfold http.Request_Cookie. simpl. now rewrite String.eqb_refl.
Qed.

(** a record written with a positive max-age is not expired while that
    many seconds have not passed, also when the sum wraps around *)
Lemma not_expired_within (now now' maxAge : Z) :
  0 < maxAge < 2 ^ 63 ->
  - 2 ^ 63 <= now < 2 ^ 63 ->
  now' <= now + maxAge ->
  expired (int64 (now + maxAge)) now' = false.
Proof.
  intros Hage Hnow Hwithin. unfold expired, int64.
  apply andb_false_iff.
  destruct (Z_lt_ge_dec (now + maxAge) (2 ^ 63)) as [Hfits|Hwraps].
  - right. apply Z.ltb_ge.
    rewrite Z.mod_small by lia. lia.
  - left. apply Z.ltb_ge.
    replace (now + maxAge + 2 ^ 63)
      with (now + maxAge + 2 ^ 63 - 2 ^ 64 + 1 * 2 ^ 64) by lia.
    rewrite Z_mod_plus_full, Z.mod_small by lia. lia.
Qed.

(** a live record under the identifier *)
Lemma load_live {V} {enc : Encodings V} (s : store) (now : Z)
    (session : sessions.Session V) (data : bytes) (sessionData : Session)
    (expiresAt : Z) (values : V) :
  accepts_read (db s) ->
  bolt.bucket (db s) !! sessions.ID session = Some data ->
  proto_Unmarshal data = inr sessionData ->
  ExpiresAt sessionData = Some expiresAt ->
  expired expiresAt now = false ->
  gob_Decode (Values sessionData) (sessions.Values session) = (values, None) ->
  load s now session
  = Ret {| l_ok := true; l_err := None;
           l_session := sessions.set_Values session values; l_db := db s |}.
Proof.
  intros [Hopen Hcommit] Hget Hun Hexp Hlive Hdec. run_load.
  rewrite Hopen. simpl. rewrite Hget, Hun, Hexp, Hlive, Hdec. simpl.
  rewrite Hcommit. reflexivity.
Qed.

(** C1, as amended: [Save] of a session with values [V] and a positive
    max-age [A], then [Get] on a fresh request (empty registry) that
    carries the cookie [Save] emitted, at most [A] seconds later and at
    a time when the store's codecs still decode that cookie, yields
    without error a session whose values are [V] and which is not new.
    The serializers are taken to round-trip on what [Save] gave them,
    the backing store to accept the write, and the clock and the
    max-age to be 64-bit values. *)
Theorem Save_then_Get {V} {enc : Encodings V}
    (s : store) (now now' : Z) (key : bytes) (r : http.Request)
    (w : http.ResponseWriter) (session : sessions.Session V)
    (id : string) (buf data : bytes) (encoded : string) :
  0 < sessions.MaxAge (sessions.Opts session) < 2 ^ 63 ->
  - 2 ^ 63 <= now < 2 ^ 63 ->
  now <= now' <= now + sessions.MaxAge (sessions.Opts session) ->
  id = (if String.eqb (sessions.ID session) "" then new_ID key
        else sessions.ID session) ->
  gob_Encode (sessions.Values session) = inr buf ->
  gob_Decode buf make_Values = (sessions.Values session, None) ->
  proto_Marshal (NewSession now buf (sessions.MaxAge (sessions.Opts session)))
  = inr data ->
  proto_Unmarshal data
  = inr (NewSession now buf (sessions.MaxAge (sessions.Opts session))) ->
  securecookie.EncodeMulti now (sessions.Name session) id (codecs s) = inr encoded ->
  securecookie.DecodeMulti now' (sessions.Name session) encoded (codecs s) = inr id ->
  accepts_put (db s) id data ->
  exists sv c f reg,
    Save s now key r w session = Ret sv
    /\ s_err sv = None
    /\ s_w sv = w ++ [c]
    /\ Get (set_db s (s_db sv)) now' ∅
         {| http.Cookies := [(http.Name c, http.Value c)] |} (sessions.Name session)
       = Ret (f, reg)
    /\ f_err f = None
    /\ sessions.Values (f_session f) = sessions.Values session
    /\ sessions.IsNew (f_session f) = false.
Proof.
  intros Hage Hnow Hwithin Hid Hgob Hungob Hproto Hunproto Henc Hdec Hput.
  unfold Save.
  replace (sessions.MaxAge (sessions.Opts session) <? 0) with false
    by (symmetry; apply Z.ltb_ge; lia).
  set (session' := if String.eqb (sessions.ID session) "" then _ else _).
  assert (Hid' : sessions.ID session' = id)
    by (subst id session'; destruct (String.eqb _ _); reflexivity).
  assert (Hvalues : sessions.Values session' = sessions.Values session)
    by (subst session'; destruct (String.eqb _ _); reflexivity).
  assert (Hopts : sessions.Opts session' = sessions.Opts session)
    by (subst session'; destruct (String.eqb _ _); reflexivity).
  assert (Hname : sessions.Name session' = sessions.Name session)
    by (subst session'; destruct (String.eqb _ _); reflexivity).
  clearbody session'.
  rewrite (save_accepted s now session' buf data);
    [|now rewrite Hvalues|now rewrite Hopts|now rewrite Hid'].
  simpl. rewrite Hname, Hid', Henc, Hopts.
  eexists. eexists. eexists. eexists.
  split; [reflexivity|]. split; [reflexivity|]. split; [reflexivity|].
  simpl. unfold Get, Registry_Get, sessions.Registry. rewrite lookup_empty.
  unfold New. rewrite lookup_own_cookie.
  simpl codecs. rewrite Hdec.
  erewrite load_live.
  - simpl. repeat split.
  - destruct Hput as [Hread _]. exact Hread.
  - simpl. apply lookup_insert_eq.
  - exact Hunproto.
  - reflexivity.
  - replace (0 <? sessions.MaxAge (sessions.Opts session)) with true
      by (symmetry; apply Z.ltb_lt; lia).
    apply not_expired_within; lia.
  - exact Hungob.
Qed.

Lemma Save_then_Get_witness :
  exists sv c f reg,
    Save (enc := reference.encodings) (reference.st 3600 reference.empty_db)
      1000 (reference.key 32) {| http.Cookies := [] |} []
      (reference.session "" 3600 {[ "uid" := "42" ]}) = Ret sv
    /\ s_err sv = None
    /\ s_w sv = [] ++ [c]
    /\ Get (enc := reference.encodings)
         (set_db (reference.st 3600 reference.empty_db) (s_db sv)) 2000 ∅
         {| http.Cookies := [(http.Name c, http.Value c)] |} "app"
       = Ret (f, reg)
    /\ f_err f = None
    /\ sessions.Values (f_session f) = {[ "uid" := "42" ]}
    /\ sessions.IsNew (f_session f) = false.
Proof.
  refine (Save_then_Get (enc := reference.encodings)
            (reference.st 3600 reference.empty_db) 1000 2000 (reference.key 32)
            {| http.Cookies := [] |} []
            (reference.session "" 3600 {[ "uid" := "42" ]})
            "AAAQEAYEAUDAOCAJBIFQYDIOB4IBCEQTCQKRMFYYDENBWHA5DYPQ"
            reference.payload (reference.record 4600)
            "app|AAAQEAYEAUDAOCAJBIFQYDIOB4IBCEQTCQKRMFYYDENBWHA5DYPQ"
            _ _ _ _ _ _ _ _ _ _ _).
  - simpl. lia.
  - lia.
  - simpl. lia.
  - reflexivity.
  - reflexivity.
  - reflexivity.
  - reflexivity.
  - reflexivity.
  - reflexivity.
  - reflexivity.
  - repeat split.
Defined.

(** C1, as stated, fails on a store with the codecs that
    [CodecsFromPairs] builds, which refuse a cookie older than 30 days
    whatever the session's max-age: a session saved at time 1000 with a
    max-age of 90 days and read 30 days and one second later, well
    within its max-age, comes back new, with empty values and the
    codec's error, although its record is still in the bucket. *)
Lemma Save_then_Get_codec_expired_counterexample :
  0 < 7776000
  /\ 1000 <= 2593001 <= 1000 + 7776000
  /\ exists sv c f reg,
       Save (enc := reference.encodings) (defaults.st 7776000 defaults.database)
         1000 (reference.key 32) {| http.Cookies := [] |} []
         (reference.session "sid" 7776000 {[ "uid" := "42" ]}) = Ret sv
       /\ s_err sv = None
       /\ s_w sv = [c]
       /\ bolt.bucket (s_db sv) !! "sid" = Some (reference.record 7777000)
       /\ Get (enc := reference.encodings)
            (set_db (defaults.st 7776000 defaults.database) (s_db sv)) 2593001 ∅
            {| http.Cookies := [(http.Name c, http.Value c)] |} "app"
          = Ret (f, reg)
       /\ f_err f = Some "securecookie: expired timestamp"
       /\ sessions.IsNew (f_session f) = true
       /\ sessions.Values (f_session f) = ∅.
Proof.
  split; [lia|]. split; [lia|].
  eexists. eexists. eexists. eexists.
  split; [reflexivity|]. split; [reflexivity|]. split; [reflexivity|].
  split; [reflexivity|]. split; [vm_compute; reflexivity|].
  repeat split.
Qed.

(** ** Errors that do not reach the caller *)

(** C2: evaluation of [Save] where marshalling the wire record fails.
    The values marshal, the record does not; [Save] returns nil instead
    of the error, writes nothing to the bucket and still sets the
    cookie. *)
Theorem Save_swallows_record_marshal_error :
  gob_Encode (Encodings := reference.failing_marshal) {[ "uid" := "42" ]}
  = inr reference.payload
  /\ proto_Marshal (Encodings := reference.failing_marshal)
       (NewSession 1000 reference.payload 3600)
     = inl "proto: required field not set"
  /\ Save (enc := reference.failing_marshal)
       (reference.st 3600 reference.empty_db) 1000 (reference.key 32)
       {| http.Cookies := [] |} []
       (reference.session "sid" 3600 {[ "uid" := "42" ]})
     = Ret {| s_err := None;
              s_session := reference.session "sid" 3600 {[ "uid" := "42" ]};
              s_w := [sessions.NewCookie 1000 "app" "app|sid" (reference.options 3600)];
              s_db := reference.empty_db |}.
Proof. repeat split. Qed.

(** C3: evaluation of [Save] on the same input, read for the order of
    persisting and setting the cookie: the response carries the session
    cookie although no record was persisted under the identifier. *)
Theorem Save_sets_cookie_without_record :
  exists sv c,
    Save (enc := reference.failing_marshal)
      (reference.st 3600 reference.empty_db) 1000 (reference.key 32)
      {| http.Cookies := [] |} []
      (reference.session "sid" 3600 {[ "uid" := "42" ]}) = Ret sv
    /\ s_w sv = [c]
    /\ http.Value c = "app|sid"
    /\ bolt.bucket (s_db sv) !! "sid" = None.
Proof. eexists. eexists. repeat split. Qed.

(** C4: evaluation of [Save] with a negative max-age and of [New] on a
    database that has been closed. The deleting transaction and the
    loading transaction both fail with [ErrDatabaseNotOpen]; [Save]
    returns nil and sets the expiring cookie, and [New] returns a nil
    error. *)
Theorem closed_database_errors_dropped :
  delete (V := gmap string string)
    (reference.st 3600 (reference.closed (reference.db_with "sid" (reference.record 0))))
    (reference.session "sid" (-1) ∅)
  = Ret {| st_err := Some bolt.ErrDatabaseNotOpen;
           st_db := reference.closed (reference.db_with "sid" (reference.record 0)) |}
  /\ Save (enc := reference.encodings)
       (reference.st 3600 (reference.closed (reference.db_with "sid" (reference.record 0))))
       1000 [] (reference.request "sid") [] (reference.session "sid" (-1) ∅)
     = Ret {| s_err := None;
              s_session := reference.session "sid" (-1) ∅;
              s_w := [sessions.NewCookie 1000 "app" "" (reference.options (-1))];
              s_db := reference.closed (reference.db_with "sid" (reference.record 0)) |}
  /\ (exists l,
        load (enc := reference.encodings)
          (reference.st 3600 (reference.closed (reference.db_with "sid" (reference.record 0))))
          1000 (reference.session "sid" 3600 ∅) = Ret l
        /\ l_err l = Some bolt.ErrDatabaseNotOpen)
  /\ (exists f,
        New (enc := reference.encodings)
          (reference.st 3600 (reference.closed (reference.db_with "sid" (reference.record 0))))
          1000 (reference.request "sid") "app" = Ret f
        /\ f_err f = None
        /\ sessions.IsNew (f_session f) = true).
Proof.
  split; [reflexivity|]. split; [reflexivity|].
  split; eexists; repeat split.
Qed.

(** * Further properties of the store *)

(** ** What [load] does to the database and to the session *)

(** X1: [load] never writes to the bucket. The database after [load] is
    the database before it, or that database without the session's own
    record, and the latter only when that record was stored, unmarshalled
    and was expired. In both cases every other record is untouched. *)
Theorem load_database_frame {V} {enc : Encodings V} (s : store) (now : Z)
    (session : sessions.Session V) (l : Loaded V) :
  load s now session = Ret l ->
  (l_db l = db s
   \/ (l_db l = bolt.set_bucket (db s)
                  (base.delete (sessions.ID session) (bolt.bucket (db s)))
       /\ exists data sessionData expiresAt,
            bolt.bucket (db s) !! sessions.ID session = Some data
            /\ proto_Unmarshal data = inr sessionData
            /\ ExpiresAt sessionData = Some expiresAt
            /\ expired expiresAt now = true))
  /\ forall k, k <> sessions.ID session ->
       bolt.bucket (l_db l) !! k = bolt.bucket (db s) !! k.
Proof.
  run_load.
  destruct (bolt.opened (db s)) eqn:Hopen; simpl;
    [|intros [= <-]; simpl; auto].
  destruct (bolt.bucket (db s) !! sessions.ID session) as [data|] eqn:Hget; simpl.
  2:{ destruct (bolt.commit_fault (db s)); simpl; intros [= <-]; simpl; auto. }
  destruct (proto_Unmarshal data) as [err|sessionData] eqn:Hun; simpl;
    [intros [= <-]; simpl; auto|].
  destruct (ExpiresAt sessionData) as [expiresAt|] eqn:Hexp; simpl; [|discriminate].
  destruct (expired expiresAt now) eqn:Hpast; simpl.
  - destruct (bolt.delete_fault (db s) (sessions.ID session)); simpl;
      [intros [= <-]; simpl; auto|].
    destruct (bolt.commit_fault (db s)); simpl; intros [= <-]; simpl; [auto|].
    split.
    + right. split; [reflexivity|]. exists data, sessionData, expiresAt. auto.
    + intros k Hk. apply lookup_delete_ne. congruence.
  - destruct (gob_Decode (Values sessionData) (sessions.Values session))
      as [values [err|]]; simpl; [intros [= <-]; simpl; auto|].
    destruct (bolt.commit_fault (db s)); simpl; intros [= <-]; simpl; auto.
Qed.

Lemma load_database_frame_witness :
  (reference.db_with "sid" (reference.record 4600)
   = db (reference.st 3600 (reference.db_with "sid" (reference.record 4600)))
   \/ (reference.db_with "sid" (reference.record 4600)
       = bolt.set_bucket
           (db (reference.st 3600 (reference.db_with "sid" (reference.record 4600))))
           (base.delete "sid"
              (bolt.bucket
                 (db (reference.st 3600 (reference.db_with "sid" (reference.record 4600))))))
       /\ exists data sessionData expiresAt,
            bolt.bucket
              (db (reference.st 3600 (reference.db_with "sid" (reference.record 4600))))
              !! "sid" = Some data
            /\ proto_Unmarshal (Encodings := reference.encodings) data = inr sessionData
            /\ ExpiresAt sessionData = Some expiresAt
            /\ expired expiresAt 1000 = true))
  /\ forall k, k <> "sid" ->
       bolt.bucket (reference.db_with "sid" (reference.record 4600)) !! k
       = bolt.bucket
           (db (reference.st 3600 (reference.db_with "sid" (reference.record 4600)))) !! k.
Proof.
  refine (load_database_frame (enc := reference.encodings)
            (reference.st 3600 (reference.db_with "sid" (reference.record 4600))) 1000
            (reference.session "sid" 3600 ∅)
            {| l_ok := true; l_err := None;
               l_session := reference.session "sid" 3600 {[ "uid" := "42" ]};
               l_db := reference.db_with "sid" (reference.record 4600) |} _).
  reflexivity.
Defined.

(** X2: a record that does not unmarshal is left where it is. [load]
    returns false with the unmarshalling error and changes neither the
    session nor the database; [New], given a cookie naming that record,
    returns a new session with empty values and a nil error. *)
Theorem load_malformed_record {V} {enc : Encodings V} (s : store) (now : Z)
    (id : string) (data : bytes) (err : error) :
  bolt.opened (db s) = true ->
  bolt.bucket (db s) !! id = Some data ->
  proto_Unmarshal data = inl err ->
  (forall session : sessions.Session V,
     sessions.ID session = id ->
     load s now session
     = Ret {| l_ok := false; l_err := Some err; l_session := session; l_db := db s |})
  /\ (forall r name c,
        http.Request_Cookie r name = inr c ->
        securecookie.DecodeMulti now name c (codecs s) = inr id ->
        exists f,
          New s now r name = Ret f
          /\ f_err f = None
          /\ sessions.IsNew (f_session f) = true
          /\ sessions.Values (f_session f) = make_Values
          /\ f_db f = db s).
Proof.
  intros Hopen Hget Hun.
  assert (Hload : forall session : sessions.Session V,
     sessions.ID session = id ->
     load s now session
     = Ret {| l_ok := false; l_err := Some err; l_session := session; l_db := db s |}).
  { intros session Hid. subst id. run_load.
    rewrite Hopen. simpl. rewrite Hget, Hun. simpl.
    now rewrite set_Values_same. }
  split; [exact Hload|].
  intros r name c Hc Hdec. unfold New. rewrite Hc, Hdec.
  rewrite Hload by reflexivity. simpl.
  eexists. repeat split.
Qed.

Lemma load_malformed_record_witness :
  (forall session : sessions.Session (gmap string string),
     sessions.ID session = "sid" ->
     load (enc := reference.encodings)
       (reference.st 3600 (reference.db_with "sid" [x07]%byte)) 1000 session
     = Ret {| l_ok := false; l_err := Some "proto: bad wiretype";
              l_session := session;
              l_db := db (reference.st 3600 (reference.db_with "sid" [x07]%byte)) |})
  /\ (forall r name c,
        http.Request_Cookie r name = inr c ->
        securecookie.DecodeMulti 1000 name c
          (codecs (reference.st 3600 (reference.db_with "sid" [x07]%byte))) = inr "sid" ->
        exists f,
          New (enc := reference.encodings)
            (reference.st 3600 (reference.db_with "sid" [x07]%byte)) 1000 r name = Ret f
          /\ f_err f = None
          /\ sessions.IsNew (f_session f) = true
          /\ sessions.Values (f_session f) = ∅
          /\ f_db f = db (reference.st 3600 (reference.db_with "sid" [x07]%byte))).
Proof.
  refine (load_malformed_record (enc := reference.encodings)
            (reference.st 3600 (reference.db_with "sid" [x07]%byte)) 1000
            "sid" [x07]%byte "proto: bad wiretype" _ _ _); reflexivity.
Defined.

(** X3: when the values of a live record do not decode, [load] returns
    true together with the decoder's error, the session holds whatever
    the decoder left in its values, and the database is unchanged.
    [New] then reports the session as new, with a nil error. *)
Theorem load_values_decode_error {V} {enc : Encodings V} (s : store) (now : Z)
    (id : string) (data : bytes) (sessionData : Session) (expiresAt : Z)
    (err : error) :
  bolt.opened (db s) = true ->
  bolt.bucket (db s) !! id = Some data ->
  proto_Unmarshal data = inr sessionData ->
  ExpiresAt sessionData = Some expiresAt ->
  expired expiresAt now = false ->
  (forall session : sessions.Session V,
     sessions.ID session = id ->
     (gob_Decode (Values sessionData) (sessions.Values session)).2 = Some err ->
     load s now session
     = Ret {| l_ok := true; l_err := Some err;
              l_session :=
                sessions.set_Values session
                  (gob_Decode (Values sessionData) (sessions.Values session)).1;
              l_db := db s |})
  /\ (forall r name c,
        http.Request_Cookie r name = inr c ->
        securecookie.DecodeMulti now name c (codecs s) = inr id ->
        (gob_Decode (Values sessionData) make_Values).2 = Some err ->
        exists f,
          New s now r name = Ret f
          /\ f_err f = None
          /\ sessions.IsNew (f_session f) = true
          /\ sessions.Values (f_session f)
             = (gob_Decode (Values sessionData) make_Values).1
          /\ f_db f = db s).
Proof.
  intros Hopen Hget Hun Hexp Hlive.
  assert (Hload : forall session : sessions.Session V,
     sessions.ID session = id ->
     (gob_Decode (Values sessionData) (sessions.Values session)).2 = Some err ->
     load s now session
     = Ret {| l_ok := true; l_err := Some err;
              l_session :=
                sessions.set_Values session
                  (gob_Decode (Values sessionData) (sessions.Values session)).1;
              l_db := db s |}).
  { intros session Hid Hdec. subst id. run_load.
    rewrite Hopen. simpl. rewrite Hget, Hun, Hexp, Hlive.
    destruct (gob_Decode (Values sessionData) (sessions.Values session))
      as [values e]. simpl in *. subst e. reflexivity. }
  split; [exact Hload|].
  intros r name c Hc Hdec Hgob. unfold New. rewrite Hc, Hdec.
  rewrite Hload; [|reflexivity|exact Hgob]. simpl.
  eexists. repeat split.
Qed.

Lemma load_values_decode_error_witness :
  load (enc := reference.encodings)
    (reference.st 3600
       (reference.db_with "sid" (x01 :: reference.be64 0 ++ [x03; x75])%byte))
    1000 (reference.session "sid" 3600 ∅)
  = Ret {| l_ok := true; l_err := Some "gob: unexpected EOF";
           l_session :=
             sessions.set_Values (reference.session "sid" 3600 ∅)
               (gob_Decode (Encodings := reference.encodings) [x03; x75]%byte
                  (sessions.Values (reference.session "sid" 3600 ∅))).1;
           l_db := db (reference.st 3600
                         (reference.db_with "sid"
                            (x01 :: reference.be64 0 ++ [x03; x75])%byte)) |}.
Proof.
  refine (proj1 (load_values_decode_error (enc := reference.encodings)
            (reference.st 3600
               (reference.db_with "sid" (x01 :: reference.be64 0 ++ [x03; x75])%byte))
            1000 "sid" (x01 :: reference.be64 0 ++ [x03; x75])%byte
            {| Values := [x03; x75]%byte; ExpiresAt := Some 0 |} 0
            "gob: unexpected EOF" _ _ _ _ _)
            (reference.session "sid" 3600 ∅) _ _); reflexivity.
Defined.

(** ** What [New] returns *)

Lemma load_session_frame {V} {enc : Encodings V} (s : store) (now : Z)
    (session : sessions.Session V) (l : Loaded V) :
  load s now session = Ret l ->
  l_session l = sessions.set_Values session (sessions.Values (l_session l)).
Proof.
  unfold load.
  destruct (bolt.Update _ _ _) as [[[captured err] db']|msg]; simpl;
    [|discriminate].
  intros [= <-]. reflexivity.
Qed.

(** X4: the error that [New] returns is the cookie decoding error and
    nothing else: it is non-nil exactly when the request carries a
    cookie of that name whose decoding fails. *)
Theorem New_error_is_decode_error {V} {enc : Encodings V} (s : store) (now : Z)
    (r : http.Request) (name : string) (f : Found V) (err : error) :
  New s now r name = Ret f ->
  (f_err f = Some err
   <-> exists c, http.Request_Cookie r name = inr c
                 /\ securecookie.DecodeMulti now name c (codecs s) = inl err).
Proof.
  unfold New.
  destruct (http.Request_Cookie r name) as [e|c] eqn:Hc.
  - intros [= <-]. simpl. split; [discriminate|].
    intros (c & [=] & _).
  - destruct (securecookie.DecodeMulti now name c (codecs s)) as [e|id] eqn:Hdec.
    + intros [= <-]. simpl. split.
      * intros [= <-]. exists c. auto.
      * intros (c' & [= <-] & Hd). congruence.
    + destruct (load s now _) as [l|msg]; simpl; [|discriminate].
      intros [= <-]. simpl. split; [discriminate|].
      intros (c' & [= <-] & Hd). congruence.
Qed.

Lemma New_error_is_decode_error_witness :
  Some (securecookie.MultiError ["securecookie: the value is not valid"])
  = Some (securecookie.MultiError ["securecookie: the value is not valid"])
  <-> exists c,
        http.Request_Cookie {| http.Cookies := [("app", "tampered|sid")] |} "app" = inr c
        /\ securecookie.DecodeMulti 1000 "app" c
             (codecs (reference.st 3600 reference.empty_db))
           = inl (securecookie.MultiError ["securecookie: the value is not valid"]).
Proof.
  refine (New_error_is_decode_error (enc := reference.encodings)
            (reference.st 3600 reference.empty_db) 1000
            {| http.Cookies := [("app", "tampered|sid")] |} "app"
            {| f_session := reference.session "" 3600 ∅;
               f_err := Some (securecookie.MultiError
                                ["securecookie: the value is not valid"]);
               f_db := reference.empty_db |}
            (securecookie.MultiError ["securecookie: the value is not valid"]) _).
  reflexivity.
Defined.

(** X5: whatever path [New] takes, the session it returns carries the
    store's configured options and the requested name, and its
    identifier is either empty or the one decoded from the request's
    cookie. *)
Theorem New_session_shape {V} {enc : Encodings V} (s : store) (now : Z)
    (r : http.Request) (name : string) (f : Found V) :
  New s now r name = Ret f ->
  sessions.Opts (f_session f) = SessionOptions (config s)
  /\ sessions.Name (f_session f) = name
  /\ (sessions.ID (f_session f) = ""
      \/ exists c, http.Request_Cookie r name = inr c
                   /\ securecookie.DecodeMulti now name c (codecs s)
                      = inr (sessions.ID (f_session f))).
Proof.
  unfold New.
  destruct (http.Request_Cookie r name) as [e|c] eqn:Hc;
    [intros [= <-]; simpl; auto|].
  destruct (securecookie.DecodeMulti now name c (codecs s)) as [e|id] eqn:Hdec;
    [intros [= <-]; simpl; auto|].
  destruct (load s now _) as [l|msg] eqn:Hl; simpl; [|discriminate].
  intros [= <-]. simpl.
  rewrite (load_session_frame _ _ _ _ Hl). simpl.
  repeat split. right. exists c. auto.
Qed.

Lemma New_session_shape_witness :
  sessions.Opts (reference.session "sid" 3600 ∅)
  = SessionOptions (config (reference.st 3600 reference.empty_db))
  /\ sessions.Name (reference.session "sid" 3600 ∅) = "app"
  /\ (sessions.ID (reference.session "sid" 3600 ∅) = ""
      \/ exists c, http.Request_Cookie (reference.request "sid") "app" = inr c
                   /\ securecookie.DecodeMulti 1000 "app" c
                        (codecs (reference.st 3600 reference.empty_db))
                      = inr (sessions.ID (reference.session "sid" 3600 ∅))).
Proof.
  refine (New_session_shape (enc := reference.encodings)
            (reference.st 3600 reference.empty_db) 1000
            (reference.request "sid") "app"
            {| f_session := reference.session "sid" 3600 ∅; f_err := None;
               f_db := reference.empty_db |} _).
  reflexivity.
Defined.

(** X6: [New] reports a session as not new only when the request's
    cookie decoded to an identifier under which an open database holds a
    record that unmarshals, is not expired and whose values decoded
    without error into the session, in a transaction that committed;
    the database is then left as it was. *)
Theorem New_not_new_has_record {V} {enc : Encodings V} (s : store) (now : Z)
    (r : http.Request) (name : string) (f : Found V) :
  New s now r name = Ret f ->
  sessions.IsNew (f_session f) = false ->
  exists c data sessionData expiresAt,
    http.Request_Cookie r name = inr c
    /\ securecookie.DecodeMulti now name c (codecs s)
       = inr (sessions.ID (f_session f))
    /\ accepts_read (db s)
    /\ bolt.bucket (db s) !! sessions.ID (f_session f) = Some data
    /\ proto_Unmarshal data = inr sessionData
    /\ ExpiresAt sessionData = Some expiresAt
    /\ expired expiresAt now = false
    /\ gob_Decode (Values sessionData) make_Values
       = (sessions.Values (f_session f), None)
    /\ f_db f = db s.
Proof.
  unfold New.
  destruct (http.Request_Cookie r name) as [e|c] eqn:Hc;
    [intros [= <-]; discriminate|].
  destruct (securecookie.DecodeMulti now name c (codecs s)) as [e|id] eqn:Hdec;
    [intros [= <-]; discriminate|].
  run_load.
  destruct (bolt.opened (db s)) eqn:Hopen; simpl;
    [|intros [= <-]; discriminate].
  destruct (bolt.bucket (db s) !! id) as [data|] eqn:Hget; simpl.
  2:{ destruct (bolt.commit_fault (db s)); simpl; intros [= <-]; discriminate. }
  destruct (proto_Unmarshal data) as [err|sessionData] eqn:Hun; simpl;
    [intros [= <-]; discriminate|].
  destruct (ExpiresAt sessionData) as [expiresAt|] eqn:Hexp; simpl; [|discriminate].
  destruct (expired expiresAt now) eqn:Hpast; simpl.
  - destruct (bolt.delete_fault (db s) id); simpl; [intros [= <-]; discriminate|].
    destruct (bolt.commit_fault (db s)); simpl; intros [= <-]; discriminate.
  - destruct (gob_Decode (Values sessionData) make_Values)
      as [values [err|]] eqn:Hgob; simpl; [intros [= <-]; discriminate|].
    destruct (bolt.commit_fault (db s)) eqn:Hcommit; simpl;
      intros [= <-]; [discriminate|]. simpl. intros _.
    exists c, data, sessionData, expiresAt. repeat split; assumption.
Qed.

Lemma New_not_new_has_record_witness :
  exists c data sessionData expiresAt,
    http.Request_Cookie (reference.request "sid") "app" = inr c
    /\ securecookie.DecodeMulti 1000 "app" c
         (codecs (reference.st 3600 (reference.db_with "sid" (reference.record 4600))))
       = inr "sid"
    /\ accepts_read (reference.db_with "sid" (reference.record 4600))
    /\ bolt.bucket (reference.db_with "sid" (reference.record 4600)) !! "sid" = Some data
    /\ proto_Unmarshal (Encodings := reference.encodings) data = inr sessionData
    /\ ExpiresAt sessionData = Some expiresAt
    /\ expired expiresAt 1000 = false
    /\ gob_Decode (Encodings := reference.encodings) (Values sessionData) ∅
       = ({[ "uid" := "42" ]}, None)
    /\ reference.db_with "sid" (reference.record 4600)
       = reference.db_with "sid" (reference.record 4600).
Proof.
  refine (New_not_new_has_record (enc := reference.encodings)
            (reference.st 3600 (reference.db_with "sid" (reference.record 4600))) 1000
            (reference.request "sid") "app"
            {| f_session :=
                 {| sessions.ID := "sid"; sessions.Values := {[ "uid" := "42" ]};
                    sessions.Opts := reference.options 3600;
                    sessions.IsNew := false; sessions.name := "app" |};
               f_err := None;
               f_db := reference.db_with "sid" (reference.record 4600) |} _ _);
    reflexivity.
Defined.

(** ** What [Save] changes *)

Ltac run_save :=
  unfold delete, save, bolt.Update, bolt.Put, bolt.Delete,
    accepts_put, accepts_delete, accepts_read in *;
  simpl in *.

(** the database after [Save]: untouched, or with the session's record
    written, or with it deleted *)
Lemma Save_database_shape {V} {enc : Encodings V} (s : store) (now : Z)
    (key : bytes) (r : http.Request) (w : http.ResponseWriter)
    (session : sessions.Session V) (sv : Saved V) :
  Save s now key r w session = Ret sv ->
  s_db sv = db s
  \/ (exists data,
        s_db sv = bolt.set_bucket (db s)
                    (<[sessions.ID (s_session sv) := data]> (bolt.bucket (db s))))
  \/ s_db sv = bolt.set_bucket (db s)
                 (base.delete (sessions.ID (s_session sv)) (bolt.bucket (db s))).
Proof.
  unfold Save. destruct (_ <? 0).
  - run_save. destruct (bolt.opened (db s)); simpl; [|intros [= <-]; auto].
    destruct (bolt.delete_fault (db s) (sessions.ID session)); simpl;
      [intros [= <-]; auto|].
    destruct (bolt.commit_fault (db s)); simpl; intros [= <-]; simpl; auto.
  - set (session' := if String.eqb (sessions.ID session) "" then _ else _).
    clearbody session'. run_save.
    destruct (gob_Encode _); simpl; [intros [= <-]; auto|].
    destruct (proto_Marshal _) as [e|data]; simpl.
    + destruct (securecookie.EncodeMulti _ _ _ _); intros [= <-]; auto.
    + destruct (bolt.opened (db s)); simpl; [|intros [= <-]; auto].
      destruct (bolt.put_fault (db s) _ _); simpl; [intros [= <-]; auto|].
      destruct (bolt.commit_fault (db s)); simpl; [intros [= <-]; auto|].
      destruct (securecookie.EncodeMulti _ _ _ _); intros [= <-]; simpl;
        right; left; exists data; reflexivity.
Qed.

(** X7: [Save] touches no record but the session's own: for every
    input it returns, and under every key other than the identifier the
    session has after [Save] the bucket holds what it held before. *)
Theorem Save_database_frame {V} {enc : Encodings V} (s : store) (now : Z)
    (key : bytes) (r : http.Request) (w : http.ResponseWriter)
    (session : sessions.Session V) :
  exists sv,
    Save s now key r w session = Ret sv
    /\ forall k, k <> sessions.ID (s_session sv) ->
         bolt.bucket (s_db sv) !! k = bolt.bucket (db s) !! k.
Proof.
  destruct (Save_returns s now key r w session) as [sv Hsv].
  exists sv. split; [exact Hsv|].
  intros k Hk.
  destruct (Save_database_shape s now key r w session sv Hsv)
    as [-> | [[data ->] | ->]]; simpl.
  - reflexivity.
  - apply lookup_insert_ne. congruence.
  - apply lookup_delete_ne. congruence.
Qed.

(** X8: [Save] changes nothing of the session but an empty identifier:
    values, options, the new flag and the name are as they were, and the
    whole session is as it was when its identifier is not empty or its
    max-age is negative. *)
Theorem Save_session_frame {V} {enc : Encodings V} (s : store) (now : Z)
    (key : bytes) (r : http.Request) (w : http.ResponseWriter)
    (session : sessions.Session V) :
  exists sv,
    Save s now key r w session = Ret sv
    /\ sessions.Values (s_session sv) = sessions.Values session
    /\ sessions.Opts (s_session sv) = sessions.Opts session
    /\ sessions.IsNew (s_session sv) = sessions.IsNew session
    /\ sessions.Name (s_session sv) = sessions.Name session
    /\ (sessions.ID session <> "" \/ sessions.MaxAge (sessions.Opts session) < 0 ->
        s_session sv = session).
Proof.
  destruct (Save_returns s now key r w session) as [sv Hsv].
  exists sv. split; [exact Hsv|]. revert Hsv.
  unfold Save. destruct (_ <? 0) eqn:Hage.
  - destruct (delete_returns s session) as [st ->]. simpl.
    intros [= <-]. simpl. repeat split.
  - assert (Hshape :
      forall session' : sessions.Session V,
        session' = (if String.eqb (sessions.ID session) ""
                    then sessions.set_ID session (new_ID key) else session) ->
        sessions.Values session' = sessions.Values session
        /\ sessions.Opts session' = sessions.Opts session
        /\ sessions.IsNew session' = sessions.IsNew session
        /\ sessions.Name session' = sessions.Name session
        /\ (sessions.ID session <> ""
            \/ sessions.MaxAge (sessions.Opts session) < 0 -> session' = session)).
    { intros session' ->.
      destruct (String.eqb_spec (sessions.ID session) "") as [Hid|Hid].
      - repeat split. intros [Hne|Hneg]; [contradiction|].
        apply Z.ltb_ge in Hage. lia.
      - repeat split. }
    set (session' := if String.eqb (sessions.ID session) "" then _ else _) in *.
    specialize (Hshape session' eq_refl). clearbody session'.
    destruct (save_returns s now session') as [st ->]. simpl.
    destruct (st_err st); [intros [= <-]; exact Hshape|].
    destruct (securecookie.EncodeMulti _ _ _ _); intros [= <-]; exact Hshape.
Qed.

(** X9: [Save] sets a cookie exactly when it returns nil. On success
    the response gains one cookie, after those it had, with the
    session's name and the session's path, domain, max-age and flags; on
    an error the response is as it was. *)
Theorem Save_cookie_iff_success {V} {enc : Encodings V} (s : store) (now : Z)
    (key : bytes) (r : http.Request) (w : http.ResponseWriter)
    (session : sessions.Session V) :
  exists sv,
    Save s now key r w session = Ret sv
    /\ ((s_err sv = None
         /\ exists value,
              s_w sv = w ++ [sessions.NewCookie now (sessions.Name session) value
                               (sessions.Opts session)])
        \/ (exists err, s_err sv = Some err) /\ s_w sv = w).
Proof.
  unfold Save. destruct (_ <? 0).
  - destruct (delete_returns s session) as [st ->]. simpl.
    eexists. split; [reflexivity|]. left. simpl. eauto.
  - set (session' := if String.eqb (sessions.ID session) "" then _ else _).
    assert (Hopts : sessions.Opts session' = sessions.Opts session)
      by (subst session'; destruct (String.eqb _ _); reflexivity).
    assert (Hname : sessions.Name session' = sessions.Name session)
      by (subst session'; destruct (String.eqb _ _); reflexivity).
    clearbody session'.
    destruct (save_returns s now session') as [st ->]. simpl.
    destruct (st_err st) as [err|].
    + eexists. split; [reflexivity|]. right. simpl. eauto.
    + destruct (securecookie.EncodeMulti _ _ _ _) as [err|encoded].
      * eexists. split; [reflexivity|]. right. simpl. eauto.
      * eexists. split; [reflexivity|]. left. simpl.
        rewrite Hopts, Hname. eauto.
Qed.

(** X10: when the values of the session cannot be encoded, [Save]
    (max-age not negative) returns the encoder's error, writes nothing
    to the database and sets no cookie. *)
Theorem Save_values_encode_error {V} {enc : Encodings V} (s : store) (now : Z)
    (key : bytes) (r : http.Request) (w : http.ResponseWriter)
    (session : sessions.Session V) (err : error) :
  0 <= sessions.MaxAge (sessions.Opts session) ->
  gob_Encode (sessions.Values session) = inl err ->
  exists sv,
    Save s now key r w session = Ret sv
    /\ s_err sv = Some err
    /\ s_w sv = w
    /\ s_db sv = db s.
Proof.
  intros Hage Hgob. unfold Save.
  replace (sessions.MaxAge (sessions.Opts session) <? 0) with false
    by (symmetry; apply Z.ltb_ge; lia).
  set (session' := if String.eqb (sessions.ID session) "" then _ else _).
  assert (Hvalues : sessions.Values session' = sessions.Values session)
    by (subst session'; destruct (String.eqb _ _); reflexivity).
  clearbody session'.
  rewrite (save_gob_error s now session' err) by now rewrite Hvalues.
  simpl. eexists. repeat split.
Qed.

Lemma Save_values_encode_error_witness :
  exists sv,
    Save (enc := reference.encodings) (reference.st 3600 reference.empty_db) 1000
      (reference.key 32) {| http.Cookies := [] |} []
      (reference.session "sid" 3600
         {[ "k" := String.concat "" (replicate 256 "x") ]}) = Ret sv
    /\ s_err sv = Some "value too long"
    /\ s_w sv = []
    /\ s_db sv = db (reference.st 3600 reference.empty_db).
Proof.
  refine (Save_values_encode_error (enc := reference.encodings)
            (reference.st 3600 reference.empty_db) 1000
            (reference.key 32) {| http.Cookies := [] |} []
            (reference.session "sid" 3600
               {[ "k" := String.concat "" (replicate 256 "x") ]})
            "value too long" _ _).
  - simpl. lia.
  - vm_compute. reflexivity.
Defined.

(** X11: when the record has been written and the cookie codecs then
    fail, [Save] returns the codec error and sets no cookie, and the
    record stays in the bucket under the session's identifier. *)
Theorem Save_cookie_encode_error {V} {enc : Encodings V} (s : store) (now : Z)
    (key : bytes) (r : http.Request) (w : http.ResponseWriter)
    (session : sessions.Session V) (buf data : bytes) (err : error) :
  0 <= sessions.MaxAge (sessions.Opts session) ->
  sessions.ID session <> "" ->
  gob_Encode (sessions.Values session) = inr buf ->
  proto_Marshal (NewSession now buf (sessions.MaxAge (sessions.Opts session)))
  = inr data ->
  accepts_put (db s) (sessions.ID session) data ->
  securecookie.EncodeMulti now (sessions.Name session) (sessions.ID session)
    (codecs s) = inl err ->
  exists sv,
    Save s now key r w session = Ret sv
    /\ s_err sv = Some err
    /\ s_w sv = w
    /\ bolt.bucket (s_db sv) !! sessions.ID session = Some data.
Proof.
  intros Hage Hid Hgob Hproto Hput Hcookie. unfold Save.
  replace (sessions.MaxAge (sessions.Opts session) <? 0) with false
    by (symmetry; apply Z.ltb_ge; lia).
  replace (String.eqb (sessions.ID session) "") with false
    by (symmetry; apply String.eqb_neq; exact Hid).
  rewrite (save_accepted s now session buf data Hgob Hproto Hput). simpl.
  rewrite Hcookie. eexists. repeat split. simpl. apply lookup_insert_eq.
Qed.

Lemma Save_cookie_encode_error_witness :
  exists sv,
    Save (enc := reference.encodings)
      {| codecs := []; config := config (reference.st 3600 reference.empty_db);
         db := reference.empty_db |} 1000
      (reference.key 32) {| http.Cookies := [] |} []
      (reference.session "sid" 3600 {[ "uid" := "42" ]}) = Ret sv
    /\ s_err sv = Some (securecookie.MultiError [])
    /\ s_w sv = []
    /\ bolt.bucket (s_db sv) !! "sid" = Some (reference.record 4600).
Proof.
  refine (Save_cookie_encode_error (enc := reference.encodings)
            {| codecs := []; config := config (reference.st 3600 reference.empty_db);
               db := reference.empty_db |} 1000
            (reference.key 32) {| http.Cookies := [] |} []
            (reference.session "sid" 3600 {[ "uid" := "42" ]})
            reference.payload (reference.record 4600)
            (securecookie.MultiError []) _ _ _ _ _ _).
  - simpl. lia.
  - discriminate.
  - reflexivity.
  - reflexivity.
  - repeat split.
  - reflexivity.
Defined.

(** ** How the operations compose *)

(** a [Save] that every collaborator accepts *)
Lemma Save_accepted {V} {enc : Encodings V} (s : store) (now : Z)
    (key : bytes) (r : http.Request) (w : http.ResponseWriter)
    (session : sessions.Session V) (id : string) (buf data : bytes)
    (encoded : string) :
  0 <= sessions.MaxAge (sessions.Opts session) ->
  id = (if String.eqb (sessions.ID session) "" then new_ID key
        else sessions.ID session) ->
  gob_Encode (sessions.Values session) = inr buf ->
  proto_Marshal (NewSession now buf (sessions.MaxAge (sessions.Opts session)))
  = inr data ->
  accepts_put (db s) id data ->
  securecookie.EncodeMulti now (sessions.Name session) id (codecs s) = inr encoded ->
  Save s now key r w session
  = Ret {| s_err := None;
           s_session := (if String.eqb (sessions.ID session) ""
                         then sessions.set_ID session (new_ID key) else session);
           s_w := w ++ [sessions.NewCookie now (sessions.Name session) encoded
                          (sessions.Opts session)];
           s_db := bolt.set_bucket (db s) (<[id := data]> (bolt.bucket (db s))) |}.
Proof.
  intros Hage Hid Hgob Hproto Hput Henc. unfold Save.
  replace (sessions.MaxAge (sessions.Opts session) <? 0) with false
    by (symmetry; apply Z.ltb_ge; lia).
  set (session' := if String.eqb (sessions.ID session) "" then _ else _).
  assert (Hid' : sessions.ID session' = id)
    by (subst id session'; destruct (String.eqb _ _); reflexivity).
  assert (Hvalues : sessions.Values session' = sessions.Values session)
    by (subst session'; destruct (String.eqb _ _); reflexivity).
  assert (Hopts : sessions.Opts session' = sessions.Opts session)
    by (subst session'; destruct (String.eqb _ _); reflexivity).
  assert (Hname : sessions.Name session' = sessions.Name session)
    by (subst session'; destruct (String.eqb _ _); reflexivity).
  clearbody session'.
  rewrite (save_accepted s now session' buf data);
    [|now rewrite Hvalues|now rewrite Hopts|now rewrite Hid'].
  simpl. rewrite Hname, Hid', Henc, Hopts. reflexivity.
Qed.

(** X12: [New] keeps the identifier that the cookie decodes to even
    when nothing is stored under it: the session is new, with empty
    values, and carries that identifier; a [Save] of that session then
    creates the record under the identifier the client sent, not under
    a freshly generated one. *)
Theorem New_unknown_identifier_then_Save {V} {enc : Encodings V}
    (s : store) (now now' : Z) (key : bytes) (r : http.Request)
    (w : http.ResponseWriter) (name c id : string) (buf data : bytes)
    (encoded : string) :
  http.Request_Cookie r name = inr c ->
  securecookie.DecodeMulti now name c (codecs s) = inr id ->
  id <> "" ->
  bolt.bucket (db s) !! id = None ->
  0 <= sessions.MaxAge (SessionOptions (config s)) ->
  gob_Encode make_Values = inr buf ->
  proto_Marshal (NewSession now' buf (sessions.MaxAge (SessionOptions (config s))))
  = inr data ->
  accepts_put (db s) id data ->
  securecookie.EncodeMulti now' name id (codecs s) = inr encoded ->
  exists f sv,
    New s now r name = Ret f
    /\ f_err f = None
    /\ sessions.IsNew (f_session f) = true
    /\ sessions.ID (f_session f) = id
    /\ sessions.Values (f_session f) = make_Values
    /\ f_db f = db s
    /\ Save (set_db s (f_db f)) now' key r w (f_session f) = Ret sv
    /\ s_err sv = None
    /\ sessions.ID (s_session sv) = id
    /\ bolt.bucket (s_db sv) !! id = Some data.
Proof.
  intros Hc Hdec Hid Hget Hage Hgob Hproto Hput Henc.
  unfold New. rewrite Hc, Hdec.
  match goal with |- context [load s now ?x] =>
    destruct (load_absent s now x Hget) as (l & -> & Hok & Hs & Hdb & _) end.
  simpl. rewrite Hok, Hs, Hdb, andb_false_r. simpl.
  eexists. eexists.
  do 6 (split; [reflexivity|]). simpl.
  erewrite (Save_accepted (set_db s (db s)) now' key r w _ id buf data encoded);
    [ | exact Hage
      | simpl; apply String.eqb_neq in Hid; rewrite Hid; reflexivity
      | exact Hgob | exact Hproto | exact Hput | exact Henc ].
  simpl. apply String.eqb_neq in Hid. rewrite Hid. simpl.
  repeat split. apply lookup_insert_eq.
Qed.

Lemma New_unknown_identifier_then_Save_witness :
  exists f sv,
    New (enc := reference.encodings) (reference.st 3600 reference.empty_db) 1000
      (reference.request "chosen") "app" = Ret f
    /\ f_err f = None
    /\ sessions.IsNew (f_session f) = true
    /\ sessions.ID (f_session f) = "chosen"
    /\ sessions.Values (f_session f) = ∅
    /\ f_db f = db (reference.st 3600 reference.empty_db)
    /\ Save (enc := reference.encodings)
         (set_db (reference.st 3600 reference.empty_db) (f_db f)) 1001
         (reference.key 32) (reference.request "chosen") [] (f_session f) = Ret sv
    /\ s_err sv = None
    /\ sessions.ID (s_session sv) = "chosen"
    /\ bolt.bucket (s_db sv) !! "chosen"
       = Some (x01 :: reference.be64 4601)%byte.
Proof.
  refine (New_unknown_identifier_then_Save (enc := reference.encodings)
            (reference.st 3600 reference.empty_db) 1000 1001 (reference.key 32)
            (reference.request "chosen") [] "app" "app|chosen" "chosen"
            [] (x01 :: reference.be64 4601)%byte "app|chosen"
            _ _ _ _ _ _ _ _ _).
  - reflexivity.
  - reflexivity.
  - discriminate.
  - reflexivity.
  - simpl. lia.
  - reflexivity.
  - reflexivity.
  - repeat split.
  - reflexivity.
Defined.

(** X13: the last write wins. Whatever an earlier [Save] did with the
    identifier, a later accepted [Save] of a session with that
    identifier leaves the bucket as a single [Save] of the later session
    on the original database would: the later record under the
    identifier and every other record as before. *)
Theorem Save_overwrites {V} {enc : Encodings V} (s : store) (now1 now2 : Z)
    (key1 key2 : bytes) (r1 r2 : http.Request) (w1 w2 : http.ResponseWriter)
    (session1 session2 : sessions.Session V) (sv1 : Saved V)
    (buf data : bytes) (encoded : string) :
  Save s now1 key1 r1 w1 session1 = Ret sv1 ->
  sessions.ID session2 = sessions.ID (s_session sv1) ->
  sessions.ID session2 <> "" ->
  0 <= sessions.MaxAge (sessions.Opts session2) ->
  gob_Encode (sessions.Values session2) = inr buf ->
  proto_Marshal (NewSession now2 buf (sessions.MaxAge (sessions.Opts session2)))
  = inr data ->
  accepts_put (db s) (sessions.ID session2) data ->
  securecookie.EncodeMulti now2 (sessions.Name session2) (sessions.ID session2)
    (codecs s) = inr encoded ->
  exists sv2,
    Save (set_db s (s_db sv1)) now2 key2 r2 w2 session2 = Ret sv2
    /\ s_err sv2 = None
    /\ bolt.bucket (s_db sv2)
       = <[sessions.ID session2 := data]> (bolt.bucket (db s)).
Proof.
  intros Hsv1 Hsame Hid Hage Hgob Hproto Hput Henc.
  assert (Hkeep : (if String.eqb (sessions.ID session2) ""
                   then new_ID key2 else sessions.ID session2)
                  = sessions.ID session2).
  { apply String.eqb_neq in Hid. now rewrite Hid. }
  assert (Hput1 : accepts_put (s_db sv1) (sessions.ID session2) data).
  { destruct (Save_database_shape s now1 key1 r1 w1 session1 sv1 Hsv1)
      as [-> | [[d ->] | ->]]; exact Hput. }
  rewrite (Save_accepted (set_db s (s_db sv1)) now2 key2 r2 w2 session2
             (sessions.ID session2) buf data encoded);
    [ | exact Hage | now rewrite Hkeep | exact Hgob | exact Hproto
      | exact Hput1 | exact Henc ].
  eexists. split; [reflexivity|]. split; [reflexivity|]. simpl.
  destruct (Save_database_shape s now1 key1 r1 w1 session1 sv1 Hsv1)
    as [-> | [[d ->] | ->]]; simpl.
  - reflexivity.
  - rewrite <- Hsame. apply insert_insert_eq.
  - rewrite <- Hsame. apply insert_delete_eq.
Qed.

Lemma Save_overwrites_witness :
  exists sv2,
    Save (enc := reference.encodings)
      (set_db (reference.st 3600 reference.empty_db)
         (reference.db_with "sid" (reference.record 4600))) 2000
      [] (reference.request "sid") [] (reference.session "sid" 3600 ∅) = Ret sv2
    /\ s_err sv2 = None
    /\ bolt.bucket (s_db sv2)
       = <["sid" := (x01 :: reference.be64 5600)%byte]> ∅.
Proof.
  refine (Save_overwrites (enc := reference.encodings)
            (reference.st 3600 reference.empty_db) 1000 2000
            (reference.key 32) [] {| http.Cookies := [] |} (reference.request "sid")
            [] []
            (reference.session "sid" 3600 {[ "uid" := "42" ]})
            (reference.session "sid" 3600 ∅)
            {| s_err := None;
               s_session := reference.session "sid" 3600 {[ "uid" := "42" ]};
               s_w := [sessions.NewCookie 1000 "app" "app|sid" (reference.options 3600)];
               s_db := reference.db_with "sid" (reference.record 4600) |}
            [] (x01 :: reference.be64 5600)%byte "app|sid"
            _ _ _ _ _ _ _ _).
  - reflexivity.
  - reflexivity.
  - discriminate.
  - simpl. lia.
  - reflexivity.
  - reflexivity.
  - repeat split.
  - reflexivity.
Defined.

(** reading the cookie that a request carries under the session's name *)
Lemma New_decoded {V} {enc : Encodings V} (s : store) (now : Z)
    (r : http.Request) (name c id : string) (l : Loaded V) :
  http.Request_Cookie r name = inr c ->
  securecookie.DecodeMulti now name c (codecs s) = inr id ->
  load s now
    {| sessions.ID := id; sessions.Values := make_Values;
       sessions.Opts := SessionOptions (config s);
       sessions.IsNew := true; sessions.name := name |} = Ret l ->
  New s now r name
  = Ret {| f_session :=
             sessions.set_IsNew (l_session l)
               (negb (match l_err l with None => true | Some _ => false end
                      && l_ok l));
           f_err := None; f_db := l_db l |}.
Proof.
  intros Hc Hdec Hl. unfold New. rewrite Hc, Hdec.
  unfold sessions.set_ID. simpl. rewrite Hl. reflexivity.
Qed.

(** X14: expiration. After an accepted [Save] with a positive max-age
    [A] at time [now] (not before the epoch, and [now + A] within 64
    bits), a request that carries the emitted cookie later than
    [now + A], at a time when the store's codecs still decode that
    cookie, gets from [New] a new session with empty values and a nil
    error, and the record is gone from the bucket, provided the backing
    store accepts the delete. *)
Theorem Save_then_expired {V} {enc : Encodings V}
    (s : store) (now now' : Z) (key : bytes) (r : http.Request)
    (w : http.ResponseWriter) (session : sessions.Session V)
    (id : string) (buf data : bytes) (encoded : string) :
  0 < sessions.MaxAge (sessions.Opts session) ->
  0 <= now ->
  now + sessions.MaxAge (sessions.Opts session) < 2 ^ 63 ->
  now + sessions.MaxAge (sessions.Opts session) < now' ->
  id = (if String.eqb (sessions.ID session) "" then new_ID key
        else sessions.ID session) ->
  gob_Encode (sessions.Values session) = inr buf ->
  proto_Marshal (NewSession now buf (sessions.MaxAge (sessions.Opts session)))
  = inr data ->
  proto_Unmarshal data
  = inr (NewSession now buf (sessions.MaxAge (sessions.Opts session))) ->
  securecookie.EncodeMulti now (sessions.Name session) id (codecs s) = inr encoded ->
  securecookie.DecodeMulti now' (sessions.Name session) encoded (codecs s) = inr id ->
  accepts_put (db s) id data ->
  bolt.delete_fault (db s) id = None ->
  exists sv c f,
    Save s now key r w session = Ret sv
    /\ s_err sv = None
    /\ s_w sv = w ++ [c]
    /\ bolt.bucket (s_db sv) !! id = Some data
    /\ New (set_db s (s_db sv)) now'
         {| http.Cookies := [(http.Name c, http.Value c)] |} (sessions.Name session)
       = Ret f
    /\ f_err f = None
    /\ sessions.IsNew (f_session f) = true
    /\ sessions.Values (f_session f) = make_Values
    /\ bolt.bucket (f_db f) !! id = None.
Proof.
  intros Hage Hnow Hfits Hlate Hid Hgob Hproto Hunproto Henc Hdec Hput Hdel.
  rewrite (Save_accepted s now key r w session id buf data encoded)
    by (try assumption; lia).
  eexists. eexists. eexists.
  split; [reflexivity|]. split; [reflexivity|]. split; [reflexivity|].
  split; [simpl; apply lookup_insert_eq|]. simpl.
  match goal with |- context [New ?s' now' ?r' ?n] =>
    destruct (load_expired s' now'
                {| sessions.ID := id; sessions.Values := make_Values;
                   sessions.Opts := SessionOptions (config s');
                   sessions.IsNew := true; sessions.name := n |}
                data (NewSession now buf (sessions.MaxAge (sessions.Opts session)))
                (int64 (now + sessions.MaxAge (sessions.Opts session))))
      as (l & Hl & Hok & Hs & Hacc)
  end.
  - simpl. apply lookup_insert_eq.
  - exact Hunproto.
  - simpl. replace (0 <? sessions.MaxAge (sessions.Opts session)) with true
      by (symmetry; apply Z.ltb_lt; lia). reflexivity.
  - unfold expired, int64. rewrite Z.mod_small by lia.
    apply andb_true_intro. split; apply Z.ltb_lt; lia.
  - destruct Hacc as [Herr Hdb].
    { destruct Hput as [Hread _]. split; [exact Hread | exact Hdel]. }
    erewrite New_decoded;
      [ | apply lookup_own_cookie | simpl; exact Hdec | exact Hl ].
    rewrite Herr, Hok, Hs, Hdb. simpl.
    split; [reflexivity|]. repeat split. apply lookup_delete_eq.
Qed.

Lemma Save_then_expired_witness :
  exists sv c f,
    Save (enc := reference.encodings) (reference.st 3600 reference.empty_db)
      1000 (reference.key 32) {| http.Cookies := [] |} []
      (reference.session "sid" 3600 {[ "uid" := "42" ]}) = Ret sv
    /\ s_err sv = None
    /\ s_w sv = [] ++ [c]
    /\ bolt.bucket (s_db sv) !! "sid" = Some (reference.record 4600)
    /\ New (enc := reference.encodings)
         (set_db (reference.st 3600 reference.empty_db) (s_db sv)) 4601
         {| http.Cookies := [(http.Name c, http.Value c)] |} "app"
       = Ret f
    /\ f_err f = None
    /\ sessions.IsNew (f_session f) = true
    /\ sessions.Values (f_session f) = ∅
    /\ bolt.bucket (f_db f) !! "sid" = None.
Proof.
  refine (Save_then_expired (enc := reference.encodings)
            (reference.st 3600 reference.empty_db) 1000 4601 (reference.key 32)
            {| http.Cookies := [] |} []
            (reference.session "sid" 3600 {[ "uid" := "42" ]})
            "sid" reference.payload (reference.record 4600) "app|sid"
            _ _ _ _ _ _ _ _ _ _ _ _).
  - simpl. lia.
  - lia.
  - simpl. lia.
  - simpl. lia.
  - reflexivity.
  - reflexivity.
  - reflexivity.
  - reflexivity.
  - reflexivity.
  - reflexivity.
  - repeat split.
  - reflexivity.
Defined.

(** X15: a record saved with max-age 0 has no expiration of its own.
    After an accepted [Save] of a session with max-age 0, [Get] on a
    fresh request that carries the emitted cookie returns the saved
    values and a session that is not new at every time at which the
    store's codecs still decode that cookie. *)
Theorem Save_zero_max_age_never_expires {V} {enc : Encodings V}
    (s : store) (now now' : Z) (key : bytes) (r : http.Request)
    (w : http.ResponseWriter) (session : sessions.Session V)
    (id : string) (buf data : bytes) (encoded : string) :
  sessions.MaxAge (sessions.Opts session) = 0 ->
  id = (if String.eqb (sessions.ID session) "" then new_ID key
        else sessions.ID session) ->
  gob_Encode (sessions.Values session) = inr buf ->
  gob_Decode buf make_Values = (sessions.Values session, None) ->
  proto_Marshal (NewSession now buf 0) = inr data ->
  proto_Unmarshal data = inr (NewSession now buf 0) ->
  securecookie.EncodeMulti now (sessions.Name session) id (codecs s) = inr encoded ->
  securecookie.DecodeMulti now' (sessions.Name session) encoded (codecs s) = inr id ->
  accepts_put (db s) id data ->
  exists sv c f reg,
    Save s now key r w session = Ret sv
    /\ s_err sv = None
    /\ s_w sv = w ++ [c]
    /\ Get (set_db s (s_db sv)) now' ∅
         {| http.Cookies := [(http.Name c, http.Value c)] |} (sessions.Name session)
       = Ret (f, reg)
    /\ f_err f = None
    /\ sessions.Values (f_session f) = sessions.Values session
    /\ sessions.IsNew (f_session f) = false.
Proof.
  intros Hage Hid Hgob Hungob Hproto Hunproto Henc Hdec Hput.
  rewrite (Save_accepted s now key r w session id buf data encoded);
    [ | lia | exact Hid | exact Hgob | now rewrite Hage | exact Hput | exact Henc ].
  eexists. eexists. eexists. eexists.
  split; [reflexivity|]. split; [reflexivity|]. split; [reflexivity|].
  simpl. unfold Get, Registry_Get, sessions.Registry. rewrite lookup_empty.
  erewrite New_decoded;
    [ | apply lookup_own_cookie | simpl; exact Hdec
      | apply (load_live _ now' _ data (NewSession now buf 0) 0
                 (sessions.Values session)) ].
  - simpl. repeat split.
  - destruct Hput as [Hread _]. exact Hread.
  - simpl. apply lookup_insert_eq.
  - exact Hunproto.
  - reflexivity.
  - unfold expired. reflexivity.
  - exact Hungob.
Qed.

Lemma Save_zero_max_age_never_expires_witness :
  exists sv c f reg,
    Save (enc := reference.encodings) (reference.st 0 reference.empty_db)
      1000 (reference.key 32) {| http.Cookies := [] |} []
      (reference.session "sid" 0 {[ "uid" := "42" ]}) = Ret sv
    /\ s_err sv = None
    /\ s_w sv = [] ++ [c]
    /\ Get (enc := reference.encodings)
         (set_db (reference.st 0 reference.empty_db) (s_db sv)) 4000000000 ∅
         {| http.Cookies := [(http.Name c, http.Value c)] |} "app"
       = Ret (f, reg)
    /\ f_err f = None
    /\ sessions.Values (f_session f) = {[ "uid" := "42" ]}
    /\ sessions.IsNew (f_session f) = false.
Proof.
  refine (Save_zero_max_age_never_expires (enc := reference.encodings)
            (reference.st 0 reference.empty_db) 1000 4000000000 (reference.key 32)
            {| http.Cookies := [] |} []
            (reference.session "sid" 0 {[ "uid" := "42" ]})
            "sid" reference.payload (reference.record 0) "app|sid"
            _ _ _ _ _ _ _ _ _); try reflexivity.
  repeat split.
Defined.

(** X16: deletion. After a [Save] with a negative max-age that the
    backing store accepts, a request whose cookie still decodes to the
    session's identifier gets from [New] a new session with empty
    values, that identifier and a nil error. *)
Theorem Save_negative_then_New {V} {enc : Encodings V}
    (s : store) (now now' : Z) (key : bytes) (r r' : http.Request)
    (w : http.ResponseWriter) (session : sessions.Session V) (name c : string) :
  sessions.MaxAge (sessions.Opts session) < 0 ->
  accepts_delete (db s) (sessions.ID session) ->
  http.Request_Cookie r' name = inr c ->
  securecookie.DecodeMulti now' name c (codecs s) = inr (sessions.ID session) ->
  exists sv f,
    Save s now key r w session = Ret sv
    /\ s_err sv = None
    /\ New (set_db s (s_db sv)) now' r' name = Ret f
    /\ f_err f = None
    /\ sessions.IsNew (f_session f) = true
    /\ sessions.Values (f_session f) = make_Values
    /\ sessions.ID (f_session f) = sessions.ID session
    /\ bolt.bucket (f_db f) !! sessions.ID session = None.
Proof.
  intros Hneg Hacc Hc Hdec. unfold Save.
  replace (sessions.MaxAge (sessions.Opts session) <? 0) with true
    by (symmetry; apply Z.ltb_lt; lia).
  rewrite (delete_accepted s session Hacc). simpl.
  eexists. eexists. split; [reflexivity|]. split; [reflexivity|]. simpl.
  match goal with |- context [New ?s' now' r' name] =>
    destruct (load_absent s' now'
                {| sessions.ID := sessions.ID session;
                   sessions.Values := make_Values;
                   sessions.Opts := SessionOptions (config s');
                   sessions.IsNew := true; sessions.name := name |})
      as (l & Hl & Hok & Hs & Hdb & _)
  end.
  { simpl. apply lookup_delete_eq. }
  erewrite New_decoded; [ | exact Hc | simpl; exact Hdec | exact Hl ].
  rewrite Hok, Hs, Hdb, andb_false_r. simpl.
  split; [reflexivity|]. repeat split. apply lookup_delete_eq.
Qed.

Lemma Save_negative_then_New_witness :
  exists sv f,
    Save (enc := reference.encodings)
      (reference.st 3600 (reference.db_with "sid" (reference.record 4600))) 1000 []
      (reference.request "sid") [] (reference.session "sid" (-1) ∅) = Ret sv
    /\ s_err sv = None
    /\ New (enc := reference.encodings)
         (set_db (reference.st 3600 (reference.db_with "sid" (reference.record 4600)))
            (s_db sv)) 1001 (reference.request "sid") "app" = Ret f
    /\ f_err f = None
    /\ sessions.IsNew (f_session f) = true
    /\ sessions.Values (f_session f) = ∅
    /\ sessions.ID (f_session f) = "sid"
    /\ bolt.bucket (f_db f) !! "sid" = None.
Proof.
  refine (Save_negative_then_New (enc := reference.encodings)
            (reference.st 3600 (reference.db_with "sid" (reference.record 4600)))
            1000 1001 [] (reference.request "sid") (reference.request "sid") []
            (reference.session "sid" (-1) ∅) "app" "app|sid" _ _ _ _).
  - simpl. lia.
  - repeat split.
  - reflexivity.
  - reflexivity.
Defined.

(** ** Close *)

(** X17: once the store has been closed, whatever [Close] returned,
    every transaction fails with [ErrDatabaseNotOpen]: [load] returns
    false with that error and leaves the session alone, and a [Save]
    with a max-age that is not negative, whose values and record
    marshal, returns that error, sets no cookie and writes nothing. *)
Theorem operations_after_Close {V} {enc : Encodings V} (s : store)
    (released : option error) :
  (forall now (session : sessions.Session V),
     load (set_db s (Close s released).2) now session
     = Ret {| l_ok := false; l_err := Some bolt.ErrDatabaseNotOpen;
              l_session := session; l_db := (Close s released).2 |})
  /\ (forall now key r w (session : sessions.Session V) buf data,
        0 <= sessions.MaxAge (sessions.Opts session) ->
        gob_Encode (sessions.Values session) = inr buf ->
        proto_Marshal (NewSession now buf (sessions.MaxAge (sessions.Opts session)))
        = inr data ->
        exists sv,
          Save (set_db s (Close s released).2) now key r w session = Ret sv
          /\ s_err sv = Some bolt.ErrDatabaseNotOpen
          /\ s_w sv = w
          /\ s_db sv = (Close s released).2).
Proof.
  split.
  - intros now session. unfold load, bolt.Update. simpl.
    now rewrite set_Values_same.
  - intros now key r w session buf data Hage Hgob Hproto. unfold Save.
    replace (sessions.MaxAge (sessions.Opts session) <? 0) with false
      by (symmetry; apply Z.ltb_ge; lia).
    set (session' := if String.eqb (sessions.ID session) "" then _ else _).
    assert (Hvalues : sessions.Values session' = sessions.Values session)
      by (subst session'; destruct (String.eqb _ _); reflexivity).
    assert (Hopts : sessions.Opts session' = sessions.Opts session)
      by (subst session'; destruct (String.eqb _ _); reflexivity).
    clearbody session'.
    unfold save, bolt.Update. rewrite Hvalues, Hopts, Hgob, Hproto. simpl.
    eexists. repeat split.
Qed.

Lemma operations_after_Close_witness :
  exists sv,
    Save (enc := reference.encodings)
      (set_db (reference.st 3600 (reference.db_with "sid" (reference.record 4600)))
         (Close (reference.st 3600 (reference.db_with "sid" (reference.record 4600)))
            (Some "close: input/output error")).2)
      1000 (reference.key 32) {| http.Cookies := [] |} []
      (reference.session "" 3600 {[ "uid" := "42" ]}) = Ret sv
    /\ s_err sv = Some bolt.ErrDatabaseNotOpen
    /\ s_w sv = []
    /\ s_db sv
       = (Close (reference.st 3600 (reference.db_with "sid" (reference.record 4600)))
            (Some "close: input/output error")).2.
Proof.
  refine (proj2
            (operations_after_Close (enc := reference.encodings)
               (reference.st 3600 (reference.db_with "sid" (reference.record 4600)))
               (Some "close: input/output error"))
            1000 (reference.key 32) {| http.Cookies := [] |} []
            (reference.session "" 3600 {[ "uid" := "42" ]})
            reference.payload (reference.record 4600) _ _ _).
  - simpl. lia.
  - reflexivity.
  - reflexivity.
Defined.

(** ** Identifiers and keys *)

Example decode_body_0_31 :
  decode_body "AAAQEAYEAUDAOCAJBIFQYDIOB4IBCEQTCQKRMFYYDENBWHA5DYPQ" = reference.key 32.
Proof. reflexivity. Qed.

Lemma all_bytes_complete (x : Z) : 0 <= x < 256 -> In x all_bytes.
Proof.
  intros Hx. unfold all_bytes. apply in_map_iff.
  exists (Z.to_nat x). split; [lia|]. apply in_seq. lia.
Qed.

Lemma holds_on_bytes_spec (P : Z -> bool) :
  holds_on_bytes P = true -> forall x, 0 <= x < 256 -> P x = true.
Proof.
  unfold holds_on_bytes. intros HP x Hx.
  apply (proj1 (forallb_forall P all_bytes) HP), all_bytes_complete, Hx.
Qed.

Lemma holds_on_byte_pairs_spec (P : Z -> Z -> bool) :
  holds_on_byte_pairs P = true ->
  forall x y, 0 <= x < 256 -> 0 <= y < 256 -> P x y = true.
Proof.
  unfold holds_on_byte_pairs. intros HP x y Hx Hy.
  pose proof (proj1 (forallb_forall _ all_bytes) HP x (all_bytes_complete x Hx)) as HPx.
  apply (proj1 (forallb_forall _ all_bytes) HPx), all_bytes_complete, Hy.
Qed.

Section Unblocks.

Import base32.

Ltac check_pairs F x y :=
  apply Z.eqb_eq;
  refine (holds_on_byte_pairs_spec F _ x y _ _);
  [vm_compute; reflexivity | assumption | assumption].

Ltac check_bytes F x :=
  apply Z.eqb_eq;
  refine (holds_on_bytes_spec F _ x _);
  [vm_compute; reflexivity | assumption].

Variables s0 s1 s2 s3 s4 : Z.
Hypothesis H0 : 0 <= s0 < 256.
Hypothesis H1 : 0 <= s1 < 256.
Hypothesis H2 : 0 <= s2 < 256.
Hypothesis H3 : 0 <= s3 < 256.
Hypothesis H4 : 0 <= s4 < 256.

Lemma unblock_0 :
  shr8 s0 3 * 8 + Z.lor (Z.land (shl8 s0 2) 31) (Z.land (shr8 s1 6) 31) / 4 = s0.
Proof.
  check_pairs
    (fun x y => shr8 x 3 * 8
                + Z.lor (Z.land (shl8 x 2) 31) (Z.land (shr8 y 6) 31) / 4 =? x)
    s0 s1.
Qed.

Lemma block_1_low :
  Z.lor (Z.land (shl8 s0 2) 31) (Z.land (shr8 s1 6) 31) mod 4 = s1 / 64.
Proof.
  check_pairs
    (fun x y => Z.lor (Z.land (shl8 x 2) 31) (Z.land (shr8 y 6) 31) mod 4 =? y / 64)
    s0 s1.
Qed.

Lemma block_3_high :
  Z.lor (Z.land (shl8 s1 4) 31) (Z.land (shr8 s2 4) 31) / 16 = s1 mod 2.
Proof.
  check_pairs
    (fun x y => Z.lor (Z.land (shl8 x 4) 31) (Z.land (shr8 y 4) 31) / 16 =? x mod 2)
    s1 s2.
Qed.

Lemma block_3_low :
  Z.lor (Z.land (shl8 s1 4) 31) (Z.land (shr8 s2 4) 31) mod 16 = s2 / 16.
Proof.
  check_pairs
    (fun x y => Z.lor (Z.land (shl8 x 4) 31) (Z.land (shr8 y 4) 31) mod 16 =? y / 16)
    s1 s2.
Qed.

Lemma block_4_high :
  Z.lor (Z.land (shl8 s2 1) 31) (shr8 s3 7) / 2 = s2 mod 16.
Proof.
  check_pairs
    (fun x y => Z.lor (Z.land (shl8 x 1) 31) (shr8 y 7) / 2 =? x mod 16) s2 s3.
Qed.

Lemma block_4_low :
  Z.lor (Z.land (shl8 s2 1) 31) (shr8 s3 7) mod 2 = s3 / 128.
Proof.
  check_pairs
    (fun x y => Z.lor (Z.land (shl8 x 1) 31) (shr8 y 7) mod 2 =? y / 128) s2 s3.
Qed.

Lemma block_6_high :
  Z.lor (Z.land (shl8 s3 3) 31) (shr8 s4 5) / 8 = s3 mod 4.
Proof.
  check_pairs
    (fun x y => Z.lor (Z.land (shl8 x 3) 31) (shr8 y 5) / 8 =? x mod 4) s3 s4.
Qed.

Lemma unblock_4 :
  Z.lor (Z.land (shl8 s3 3) 31) (shr8 s4 5) mod 8 * 32 + Z.land s4 31 = s4.
Proof.
  check_pairs
    (fun x y => Z.lor (Z.land (shl8 x 3) 31) (shr8 y 5) mod 8 * 32 + Z.land y 31 =? y)
    s3 s4.
Qed.

Lemma unblock_1 : s1 / 64 * 64 + Z.land (shr8 s1 1) 31 * 2 + s1 mod 2 = s1.
Proof.
  check_bytes (fun x => x / 64 * 64 + Z.land (shr8 x 1) 31 * 2 + x mod 2 =? x) s1.
Qed.

Lemma unblock_2 : s2 / 16 * 16 + s2 mod 16 = s2.
Proof.
  check_bytes (fun x => x / 16 * 16 + x mod 16 =? x) s2.
Qed.

Lemma unblock_3 : s3 / 128 * 128 + Z.land (shr8 s3 2) 31 * 4 + s3 mod 4 = s3.
Proof.
  check_bytes (fun x => x / 128 * 128 + Z.land (shr8 x 2) 31 * 4 + x mod 4 =? x) s3.
Qed.

(** the eight blocks of a quantum give its five bytes back *)
Lemma unblocks_blocks : unblocks (blocks s0 s1 s2 s3 s4) = [s0; s1; s2; s3; s4].
Proof.
  unfold unblocks, blocks.
  rewrite unblock_0, block_1_low, block_3_high, unblock_1.
  rewrite block_3_low, block_4_high, unblock_2.
  rewrite block_4_low, block_6_high, unblock_3, unblock_4.
  reflexivity.
Qed.

End Unblocks.

Lemma decode_encode (b : Z) : 0 <= b < 32 -> decode_char (base32.encode b) = b.
Proof.
  intros Hb. rewrite <- (Z2Nat.id b) at 2 by lia.
  unfold base32.encode.
  assert (Hn : (Z.to_nat b < 32)%nat) by lia.
  generalize dependent (Z.to_nat b). intros n Hn.
  do 32 (destruct n as [|n]; [reflexivity|]). lia.
Qed.

Lemma map_decode_encode (l : list Z) :
  Forall (fun b => 0 <= b < 32) l -> map decode_char (map base32.encode l) = l.
Proof.
  induction 1 as [|b l Hb _ IH]; simpl; [reflexivity|].
  now rewrite decode_encode, IH.
Qed.

Lemma byte_of_byte_val (a : byte) : reference.byte_of_Z (base32.byte_val a) = a.
Proof.
  unfold reference.byte_of_Z.
  rewrite Z.mod_small by apply byte_val_range.
  unfold base32.byte_val. rewrite N2Z.id, Byte.of_to_N. reflexivity.
Qed.

Lemma byte_of_zero : reference.byte_of_Z 0 = x00.
Proof. reflexivity. Qed.

(** decoding the first [n] characters of a quantum whose other blocks
    are zero *)
Lemma decode_group_encoded (n : nat) (s0 s1 s2 s3 s4 : Z) :
  0 <= s0 < 256 -> 0 <= s1 < 256 -> 0 <= s2 < 256 ->
  0 <= s3 < 256 -> 0 <= s4 < 256 ->
  (n <= 8)%nat ->
  drop n (base32.blocks s0 s1 s2 s3 s4) = replicate (8 - n) 0 ->
  decode_group (map base32.encode (take n (base32.blocks s0 s1 s2 s3 s4)))
  = map reference.byte_of_Z [s0; s1; s2; s3; s4].
Proof.
  intros H0 H1 H2 H3 H4 Hn Hzero. unfold decode_group.
  rewrite map_decode_encode by (apply Forall_take, blocks_range; assumption).
  rewrite length_map, length_take.
  replace (n `min` length (base32.blocks s0 s1 s2 s3 s4))%nat with n
    by (simpl length; lia).
  rewrite <- Hzero, take_drop, unblocks_blocks by assumption.
  reflexivity.
Qed.

Lemma decode_body_group (cs : list ascii) (rest : string) :
  length cs = 8%nat ->
  decode_body (base32.string_of_chars cs +:+ rest)
  = decode_group cs ++ decode_body rest.
Proof.
  intros Hlen.
  destruct cs as [|c0 [|c1 [|c2 [|c3 [|c4 [|c5 [|c6 [|c7 [|]]]]]]]]];
    try discriminate Hlen.
  reflexivity.
Qed.

Lemma decode_body_tail (cs : list ascii) :
  decode_body (base32.string_of_chars cs)
  = match length cs with
    | 2 => take 1 (decode_group cs)
    | 4 => take 2 (decode_group cs)
    | 5 => take 3 (decode_group cs)
    | 7 => take 4 (decode_group cs)
    | _ => decode_body (base32.string_of_chars cs)
    end%nat.
Proof.
  destruct cs as [|c0 [|c1 [|c2 [|c3 [|c4 [|c5 [|c6 [|c7 cs]]]]]]]]; reflexivity.
Qed.

(** the key can be read back from the encoded body *)
Lemma decode_encode_body (key : bytes) : decode_body (encode_body key) = key.
Proof.
  pose proof byte_val_range as Hr.
  induction key as [|a|a b|a b c|a b c d|a b c d e rest IH] using list_ind5.
  - reflexivity.
  - unfold encode_body. rewrite decode_body_tail. simpl length. cbv iota.
    rewrite decode_group_encoded; try apply Hr; try lia; [|reflexivity].
    simpl. now rewrite byte_of_byte_val.
  - unfold encode_body. rewrite decode_body_tail. simpl length. cbv iota.
    rewrite decode_group_encoded; try apply Hr; try lia; [|reflexivity].
    simpl. now rewrite !byte_of_byte_val.
  - unfold encode_body. rewrite decode_body_tail. simpl length. cbv iota.
    rewrite decode_group_encoded; try apply Hr; try lia; [|reflexivity].
    simpl. now rewrite !byte_of_byte_val.
  - unfold encode_body. rewrite decode_body_tail. simpl length. cbv iota.
    rewrite decode_group_encoded; try apply Hr; try lia; [|reflexivity].
    simpl. now rewrite !byte_of_byte_val.
  - rewrite encode_body_cons5, decode_body_group by reflexivity.
    rewrite decode_group_encoded; try apply Hr; try lia; [|reflexivity].
    rewrite IH. simpl. now rewrite !byte_of_byte_val.
Qed.

Lemma new_ID_injective (key1 key2 : bytes) :
  new_ID key1 = new_ID key2 -> key1 = key2.
Proof.
  rewrite !new_ID_body. intros Heq.
  rewrite <- (decode_encode_body key1), <- (decode_encode_body key2).
  now rewrite Heq.
Qed.

Lemma Save_assigned_ID {V} {enc : Encodings V} (s : store) (now : Z)
    (key : bytes) (r : http.Request) (w : http.ResponseWriter)
    (session : sessions.Session V) :
  sessions.ID session = "" ->
  0 <= sessions.MaxAge (sessions.Opts session) ->
  exists sv,
    Save s now key r w session = Ret sv
    /\ sessions.ID (s_session sv) = new_ID key.
Proof.
  intros Hid Hage. unfold Save.
  replace (sessions.MaxAge (sessions.Opts session) <? 0) with false
    by (symmetry; apply Z.ltb_ge; lia).
  rewrite Hid. simpl String.eqb. cbv iota.
  destruct (save_returns s now (sessions.set_ID session (new_ID key))) as [st ->].
  simpl. destruct (st_err st); [eexists; split; reflexivity|].
  destruct (securecookie.EncodeMulti _ _ _ _); eexists; split; reflexivity.
Qed.

(** X19: the identifier that [Save] assigns determines the key it was
    made from: two sessions without identifier that are saved (max-age
    not negative) with different keys from the generator leave [Save]
    with different identifiers, whatever the length of the keys. *)
Theorem Save_distinct_keys_distinct_identifiers {V} {enc : Encodings V}
    (s1 s2 : store) (now1 now2 : Z) (key1 key2 : bytes) (r1 r2 : http.Request)
    (w1 w2 : http.ResponseWriter) (session1 session2 : sessions.Session V) :
  sessions.ID session1 = "" ->
  sessions.ID session2 = "" ->
  0 <= sessions.MaxAge (sessions.Opts session1) ->
  0 <= sessions.MaxAge (sessions.Opts session2) ->
  key1 <> key2 ->
  exists sv1 sv2,
    Save s1 now1 key1 r1 w1 session1 = Ret sv1
    /\ Save s2 now2 key2 r2 w2 session2 = Ret sv2
    /\ sessions.ID (s_session sv1) <> sessions.ID (s_session sv2).
Proof.
  intros Hid1 Hid2 Hage1 Hage2 Hkeys.
  destruct (Save_assigned_ID s1 now1 key1 r1 w1 session1 Hid1 Hage1)
    as (sv1 & Hsv1 & Hnew1).
  destruct (Save_assigned_ID s2 now2 key2 r2 w2 session2 Hid2 Hage2)
    as (sv2 & Hsv2 & Hnew2).
  exists sv1, sv2. split; [exact Hsv1|]. split; [exact Hsv2|].
  rewrite Hnew1, Hnew2. intros Heq.
  apply Hkeys, new_ID_injective, Heq.
Qed.

Lemma Save_distinct_keys_distinct_identifiers_witness :
  exists sv1 sv2,
    Save (enc := reference.encodings) (reference.st 3600 reference.empty_db) 1000
      (reference.key 32) {| http.Cookies := [] |} []
      (reference.session "" 3600 ∅) = Ret sv1
    /\ Save (enc := reference.encodings) (reference.st 3600 reference.empty_db) 1000
         (replicate 32 x00) {| http.Cookies := [] |} []
         (reference.session "" 3600 ∅) = Ret sv2
    /\ sessions.ID (s_session sv1) <> sessions.ID (s_session sv2).
Proof.
  refine (Save_distinct_keys_distinct_identifiers (enc := reference.encodings)
            (reference.st 3600 reference.empty_db)
            (reference.st 3600 reference.empty_db) 1000 1000
            (reference.key 32) (replicate 32 x00)
            {| http.Cookies := [] |} {| http.Cookies := [] |} [] []
            (reference.session "" 3600 ∅) (reference.session "" 3600 ∅)
            _ _ _ _ _).
  - reflexivity.
  - reflexivity.
  - simpl. lia.
  - simpl. lia.
  - discriminate.
Defined.

(** ** A write the backing store refuses *)

(** X20: when the open database refuses the write of the record, at
    the put or at the commit, [Save] returns the store's error, leaves
    the database as it was and sets no cookie; an identifier generated
    for the session is kept on the session all the same. *)
Theorem Save_write_refused {V} {enc : Encodings V} (s : store) (now : Z)
    (key : bytes) (r : http.Request) (w : http.ResponseWriter)
    (session : sessions.Session V) (id : string) (buf data : bytes)
    (err : error) :
  0 <= sessions.MaxAge (sessions.Opts session) ->
  id = (if String.eqb (sessions.ID session) "" then new_ID key
        else sessions.ID session) ->
  gob_Encode (sessions.Values session) = inr buf ->
  proto_Marshal (NewSession now buf (sessions.MaxAge (sessions.Opts session)))
  = inr data ->
  bolt.opened (db s) = true ->
  (bolt.put_fault (db s) id data = Some err
   \/ (bolt.put_fault (db s) id data = None /\ bolt.commit_fault (db s) = Some err)) ->
  exists sv,
    Save s now key r w session = Ret sv
    /\ s_err sv = Some err
    /\ s_w sv = w
    /\ s_db sv = db s
    /\ sessions.ID (s_session sv) = id.
Proof.
  intros Hage Hid Hgob Hproto Hopen Hfault. unfold Save.
  replace (sessions.MaxAge (sessions.Opts session) <? 0) with false
    by (symmetry; apply Z.ltb_ge; lia).
  set (session' := if String.eqb (sessions.ID session) "" then _ else _).
  assert (Hid' : sessions.ID session' = id)
    by (subst id session'; destruct (String.eqb _ _); reflexivity).
  assert (Hvalues : sessions.Values session' = sessions.Values session)
    by (subst session'; destruct (String.eqb _ _); reflexivity).
  assert (Hopts : sessions.Opts session' = sessions.Opts session)
    by (subst session'; destruct (String.eqb _ _); reflexivity).
  clearbody session'.
  unfold save, bolt.Update, bolt.Put.
  rewrite Hvalues, Hopts, Hgob, Hproto, Hopen, Hid'. simpl.
  destruct Hfault as [Hput | [Hput Hcommit]]; rewrite Hput; simpl.
  - eexists. repeat split. exact Hid'.
  - rewrite Hcommit. simpl. eexists. repeat split. exact Hid'.
Qed.

Lemma Save_write_refused_witness :
  exists sv,
    Save (enc := reference.encodings)
      (reference.st 3600
         {| bolt.opened := true; bolt.bucket := ∅;
            bolt.put_fault := fun _ _ => None;
            bolt.delete_fault := fun _ => None;
            bolt.commit_fault := Some "write: no space left on device" |})
      1000 (reference.key 32) {| http.Cookies := [] |} []
      (reference.session "sid" 3600 {[ "uid" := "42" ]}) = Ret sv
    /\ s_err sv = Some "write: no space left on device"
    /\ s_w sv = []
    /\ s_db sv
       = db (reference.st 3600
               {| bolt.opened := true; bolt.bucket := ∅;
                  bolt.put_fault := fun _ _ => None;
                  bolt.delete_fault := fun _ => None;
                  bolt.commit_fault := Some "write: no space left on device" |})
    /\ sessions.ID (s_session sv) = "sid".
Proof.
  refine (Save_write_refused (enc := reference.encodings)
            (reference.st 3600
               {| bolt.opened := true; bolt.bucket := ∅;
                  bolt.put_fault := fun _ _ => None;
                  bolt.delete_fault := fun _ => None;
                  bolt.commit_fault := Some "write: no space left on device" |})
            1000 (reference.key 32) {| http.Cookies := [] |} []
            (reference.session "sid" 3600 {[ "uid" := "42" ]})
            "sid" reference.payload (reference.record 4600)
            "write: no space left on device" _ _ _ _ _ _).
  - simpl. lia.
  - reflexivity.
  - reflexivity.
  - reflexivity.
  - reflexivity.
  - right. split; reflexivity.
Defined.

(** ** A live record *)

(** X21: when the cookie decodes to an identifier under which the
    database holds a record that unmarshals, is not expired and whose
    values decode without error, and the transaction commits, [New]
    returns with a nil error a session that is not new, carries that
    identifier, the store's options and the decoded values, and the
    database is left as it was. *)
Theorem New_live_record {V} {enc : Encodings V} (s : store) (now : Z)
    (r : http.Request) (name c id : string) (data : bytes)
    (sessionData : Session) (expiresAt : Z) (values : V) :
  http.Request_Cookie r name = inr c ->
  securecookie.DecodeMulti now name c (codecs s) = inr id ->
  accepts_read (db s) ->
  bolt.bucket (db s) !! id = Some data ->
  proto_Unmarshal data = inr sessionData ->
  ExpiresAt sessionData = Some expiresAt ->
  expired expiresAt now = false ->
  gob_Decode (Values sessionData) make_Values = (values, None) ->
  New s now r name
  = Ret {| f_session :=
             {| sessions.ID := id; sessions.Values := values;
                sessions.Opts := SessionOptions (config s);
                sessions.IsNew := false; sessions.name := name |};
           f_err := None; f_db := db s |}.
Proof.
  intros Hc Hdec Hread Hget Hun Hexp Hlive Hgob.
  erewrite New_decoded;
    [ | exact Hc | exact Hdec
      | apply (load_live s now _ data sessionData expiresAt values);
        [exact Hread | exact Hget | exact Hun | exact Hexp | exact Hlive | exact Hgob] ].
  reflexivity.
Qed.

Lemma New_live_record_witness :
  New (enc := reference.encodings)
    (reference.st 3600 (reference.db_with "sid" (reference.record 4600))) 1000
    (reference.request "sid") "app"
  = Ret {| f_session :=
             {| sessions.ID := "sid"; sessions.Values := {[ "uid" := "42" ]};
                sessions.Opts := reference.options 3600;
                sessions.IsNew := false; sessions.name := "app" |};
           f_err := None;
           f_db := reference.db_with "sid" (reference.record 4600) |}.
Proof.
  refine (New_live_record (enc := reference.encodings)
            (reference.st 3600 (reference.db_with "sid" (reference.record 4600))) 1000
            (reference.request "sid") "app" "app|sid" "sid"
            (reference.record 4600)
            {| Values := reference.payload; ExpiresAt := Some 4600 |} 4600
            {[ "uid" := "42" ]} _ _ _ _ _ _ _ _); try reflexivity.
  repeat split.
Defined.
